(** * Brick: a reactive state container (src/brick/Brick.ts)

    A shallow embedding of the [Brick<T>] class and of the part of the
    observable primitive it drives (a behaviour subject, [map] and
    [distinctUntilChanged]), followed by the properties of the container.

    Conventions of the embedding.
    - JavaScript values are the inductive [Value]; objects carry the reference
      that [===] compares.  Function values are not state values here: the
      function form of [setData]'s argument is the constructor [Transformer]
      of [SetDataArg].
    - Every method is a computation in the monad [M]: it reads and updates the
      Brick, appends to the sequence of observable events, and completes
      normally or by throwing.
    - Callbacks supplied by callers (reducers, side effects, transformers,
      selectors, comparators, subscribers) do not call back into the Brick
      they are registered with. *)

From Stdlib Require Import ZArith Ascii String.
From stdpp Require Import gmap strings list fin_maps.

Local Open Scope string_scope.
Local Open Scope list_scope.
Local Open Scope Z_scope.

(** ** JavaScript values

    Numbers are rendered by integers.  An object is an ordinary one, with
    [Object.prototype] on its prototype chain (a literal, an array, a class
    instance); it has the reference that identifies it and its own
    properties in order. *)

#[warnings="-register-all"]
Inductive Value : Type :=
  | VUndefined
  | VNull
  | VBool (b : bool)
  | VNum (n : Z)
  | VStr (s : string)
  | VObj (ref : nat) (props : list (string * Value)).

(** [v instanceof Object] for a non-function value: true of objects, false of
    every primitive, [null] and [undefined] included. *)
Definition instanceofObject (v : Value) : bool :=
  match v with
  | VObj _ _ => true
  | _ => false
  end.

(** [a === b]: primitives by value, objects by reference. *)
Definition strictEquals (a b : Value) : bool :=
  match a, b with
  | VUndefined, VUndefined => true
  | VNull, VNull => true
  | VBool x, VBool y => Bool.eqb x y
  | VNum x, VNum y => Z.eqb x y
  | VStr x, VStr y => String.eqb x y
  | VObj r _, VObj r' _ => Nat.eqb r r'
  | _, _ => false
  end.

(** Property read [o.k]; [undefined] when absent or when [o] is a primitive
    without that property. *)
Fixpoint getProp (k : string) (props : list (string * Value)) : Value :=
  match props with
  | [] => VUndefined
  | (k', v) :: rest => if String.eqb k k' then v else getProp k rest
  end.

Definition prop (k : string) (o : Value) : Value :=
  match o with
  | VObj _ props => getProp k props
  | _ => VUndefined
  end.

(** ** Completions *)

(** What a [throw] carries: an [Error] built by the container itself, or any
    value thrown by a callback. *)
Inductive Exn : Type :=
  | JsError (message : string)
  | Thrown (v : Value).

Inductive Completion (A : Type) : Type :=
  | Normal (a : A)
  | Throw (e : Exn).
Arguments Normal {A} a.
Arguments Throw {A} e.

(** ** Observable events *)

(** What the devtool adapter is handed as [payload: unknown]: a state value,
    or a record written as an object literal at the call site. *)
Inductive Payload : Type :=
  | StateValue (v : Value)
  | Literal (props : list (string * Value)).

(** What can be observed of a call, in the order it happens:
    - [Transform s]: the function argument of [setData] was called on [s];
    - [Next v]: [subject.next(v)], [v] became the current value;
    - [Notify i v]: the handler of subscription [i] ran with [v];
    - [Send a x]: [devtoolWrapper.send(a, x)];
    - [Effect a p]: the side effect registered under [a] was called with [p]. *)
Inductive Event : Type :=
  | Transform (state : Value)
  | Next (v : Value)
  | Notify (subscriber : nat) (v : Value)
  | Send (action : string) (payload : Payload)
  | Effect (action : string) (payload : Value).

(** ** The observable primitive

    [BehaviorSubject], [map] and [distinctUntilChanged] are imported by
    Brick.ts from the rxjs library; src/ does not contain them.  They are
    rendered as the specification describes the primitive (sections 2, 4.1
    and 6): a subject holds a current value, hands it to a new subscriber at
    once, and on [next] pushes the value synchronously to its subscribers in
    subscription order; [map] applies the selector; [distinctUntilChanged]
    lets a key through unless the comparator equates it with the key emitted
    last.  Selectors and comparators are total. *)

(** Modelled from the spec: the operator chain
    [pipe(map(selector), distinctUntilChanged(comparator))] together with the
    state one subscription keeps, the key emitted last, [None] until the
    first emission. *)
Record Pipeline : Type := mkPipeline {
  selector : Value → Value;
  comparator : option (Value → Value → bool);
  previousKey : option Value
}.

(** A subscription: its name and, when it was made through a selector, its
    operator chain. *)
Record Observer : Type := mkObserver {
  sid : nat;
  through : option Pipeline
}.

(** Modelled from the spec: [distinctUntilChanged]'s comparator when none is
    given, "reference equality", that is [===]. *)
Definition defaultCompare : Value → Value → bool := strictEquals.

Definition compareWith (comparator : option (Value → Value → bool))
  : Value → Value → bool :=
  match comparator with
  | Some c => c
  | None => defaultCompare
  end.

(** Modelled from the spec: one value pushed to one subscription.  Without
    a selector the subscriber is handed the value; with one, the selected key,
    unless the comparator equates it with the previously emitted key. *)
Definition deliver (v : Value) (o : Observer) : Observer * list Event :=
  match through o with
  | None => (o, [Notify (sid o) v])
  | Some p =>
      let key := selector p v in
      match previousKey p with
      | Some prev =>
          if compareWith (comparator p) prev key
          then (o, [])
          else (mkObserver (sid o)
                  (Some (mkPipeline (selector p) (comparator p) (Some key))),
                [Notify (sid o) key])
      | None =>
          (mkObserver (sid o)
             (Some (mkPipeline (selector p) (comparator p) (Some key))),
           [Notify (sid o) key])
      end
  end.

(** Modelled from the spec: [BehaviorSubject<T>], the current value, the
    subscriptions in the order they were made, and how many subscriptions
    were ever made (the next one is named by that number). *)
Record BehaviorSubject : Type := mkSubject {
  value : Value;
  observers : list Observer;
  issued : nat
}.

(** What [asObservable] and [select$] return: the subject's own stream, or
    that stream piped through a selector and a comparator. *)
Inductive Observable : Type :=
  | Source
  | Piped (selector : Value → Value)
          (comparator : option (Value → Value → bool)).

(** ** The Brick *)

Abbreviation Reducer := (Value → Value → Completion Value).
Abbreviation SideEffect := (Value → Completion Value).

(** Modelled from the spec: the devtool adapter of src/brick/devtoolWrapper,
    "constructed once per Brick from the initial value", which "exposes
    send(label, payload)" and may be absent. *)
Record DevtoolWrapper : Type := mkDevtool {
  initialState : Value
}.

(** Modelled from the spec: [DevtoolWrapper.initDevtools(initialData)]; the
    adapter is optional, and [available] says whether there is one. *)
Definition initDevtools (available : bool) (initialData : Value)
  : option DevtoolWrapper :=
  if available then Some (mkDevtool initialData) else None.

Record Brick : Type := mkBrick {
  subject : BehaviorSubject;
  actions : gmap string Reducer;
  sideEffects : gmap string SideEffect;
  devtoolWrapper : option DevtoolWrapper
}.

Definition withSubject (s : BehaviorSubject) (b : Brick) : Brick :=
  mkBrick s (actions b) (sideEffects b) (devtoolWrapper b).
Definition withActions (a : gmap string Reducer) (b : Brick) : Brick :=
  mkBrick (subject b) a (sideEffects b) (devtoolWrapper b).
Definition withSideEffects (e : gmap string SideEffect) (b : Brick) : Brick :=
  mkBrick (subject b) (actions b) e (devtoolWrapper b).

(** ** The monad of methods *)

Record Run (A : Type) : Type := mkRun {
  final : Brick;
  emitted : list Event;
  completion : Completion A
}.
Arguments mkRun {A} _ _ _.
Arguments final {A} _.
Arguments emitted {A} _.
Arguments completion {A} _.

Definition M (A : Type) : Type := Brick → Run A.

Definition ret {A} (a : A) : M A := λ b, mkRun b [] (Normal a).

Definition bind {A B} (m : M A) (k : A → M B) : M B := λ b,
  let r := m b in
  match completion r with
  | Normal a =>
      let r' := k a (final r) in
      mkRun (final r') (emitted r ++ emitted r') (completion r')
  | Throw e => mkRun (final r) (emitted r) (Throw e)
  end.

Definition throw {A} (e : Exn) : M A := λ b, mkRun b [] (Throw e).
Definition get : M Brick := λ b, mkRun b [] (Normal b).
Definition put (b' : Brick) : M unit := λ _, mkRun b' [] (Normal tt).
Definition emit (evs : list Event) : M unit := λ b, mkRun b evs (Normal tt).

(** The completion of a callback becomes the completion of the caller. *)
Definition called {A} (c : Completion A) : M A := λ b, mkRun b [] c.

Declare Scope brick_scope.
Delimit Scope brick_scope with brick.
Notation "x <- m ;; k" := (bind m (λ x, k))
  (at level 100, m at next level, right associativity) : brick_scope.
Notation "m ;; k" := (bind m (λ _, k))
  (at level 100, right associativity) : brick_scope.
Local Open Scope brick_scope.

(** ** Methods of the collaborators *)

(** Modelled from the spec: [subject.next(v)] stores [v], then notifies
    every subscription in order. *)
Definition pushed (v : Value) (s : BehaviorSubject) : BehaviorSubject :=
  mkSubject v ((λ o, fst (deliver v o)) <$> observers s) (issued s).

Definition notifications (v : Value) (os : list Observer) : list Event :=
  flat_map (λ o, snd (deliver v o)) os.

Definition next (v : Value) : M unit :=
  b <- get ;;
  put (withSubject (pushed v (subject b)) b) ;;
  emit (Next v :: notifications v (observers (subject b))).

(** [this.devtoolWrapper?.send(action, payload)]: the call is made when
    there is an adapter. *)
Definition send (action : string) (payload : Payload) : M unit :=
  b <- get ;;
  match devtoolWrapper b with
  | Some _ => emit [Send action payload]
  | None => ret tt
  end.

Definition pipelineOf (source : Observable) : option Pipeline :=
  match source with
  | Source => None
  | Piped sel cmp => Some (mkPipeline sel cmp None)
  end.

(** Modelled from the spec: [source.subscribe(handler)]; the new
    subscription is given the current value at once and joins the subject's
    observers.  The result names the subscription. *)
Definition subscribe (source : Observable) : M nat :=
  b <- get ;;
  let s := subject b in
  let fresh := deliver (value s) (mkObserver (issued s) (pipelineOf source)) in
  put (withSubject
         (mkSubject (value s) (observers s ++ [fst fresh]) (S (issued s)))
         b) ;;
  emit (snd fresh) ;;
  ret (issued s).

(** Modelled from the spec: [subscription.unsubscribe()]. *)
Definition unsubscribe (id : nat) : M unit :=
  b <- get ;;
  let s := subject b in
  put (withSubject
         (mkSubject (value s) (filter (λ o, sid o ≠ id) (observers s)) (issued s))
         b).

(** ** Methods of the Brick *)

(** [new Brick(initialData)] / [Brick.createBrick(initialData)].  Whether the
    devtool adapter is available is decided outside the class. *)
Definition createBrick (devtools : bool) (initialData : Value) : Brick :=
  mkBrick (mkSubject initialData [] 0%nat) ∅ ∅ (initDevtools devtools initialData).

(** [SetDataArg<T>]: a function of the state ([instanceof Function]) or a
    value. *)
Inductive SetDataArg : Type :=
  | Transformer (f : Value → Completion Value)
  | Direct (v : Value).

Definition setData (setDataArg : SetDataArg) (action : string) : M unit :=
  match setDataArg with
  | Transformer f =>
      b <- get ;;
      emit [Transform (value (subject b))] ;;
      newState <- called (f (value (subject b))) ;;
      next newState ;;
      send action (StateValue newState)
  | Direct v =>
      if instanceofObject v
      then send action (StateValue v) ;; next v
      else ret tt
  end.

(** The one-argument overload: [action] defaults to 'SET_DATA'. *)
Definition setData1 (setDataArg : SetDataArg) : M unit :=
  setData setDataArg "SET_DATA".

Definition asObservable : Observable := Source.

(** [select$(selector?, comparator?)]; without a selector the comparator is
    not looked at. *)
Definition select (selector : option (Value → Value))
    (comparator : option (Value → Value → bool)) : Observable :=
  match selector with
  | None => Source
  | Some sel => Piped sel comparator
  end.

Definition snapshot (b : Brick) : Value := value (subject b).

(** The double quote of the error messages. *)
Definition quote : string := String "034"%char EmptyString.

Definition duplicateAction (name : string) : Exn :=
  JsError ("Action with the name " +:+ quote +:+ name +:+ quote
           +:+ " is already registered.").

Definition duplicateSideEffect (name : string) : Exn :=
  JsError ("Side effect with the name " +:+ quote +:+ name +:+ quote
           +:+ " is already registered.").

Definition registerAction (name : string) (reducer : Reducer) : M unit :=
  b <- get ;;
  match actions b !! name with
  | Some _ => throw (duplicateAction name)
  | None =>
      put (withActions
             (<[name := λ state payload, reducer state payload]> (actions b)) b)
  end.

Definition registerSideEffect (name : string) (effect : SideEffect) : M unit :=
  b <- get ;;
  match sideEffects b !! name with
  | Some _ => throw (duplicateSideEffect name)
  | None =>
      put (withSideEffects
             (<[name := λ payload, effect payload]> (sideEffects b)) b)
  end.

(** The literal [{type: 'sideEffect', payload}]. *)
Definition sideEffectRecord (payload : Value) : Payload :=
  Literal [("type", VStr "sideEffect"); ("payload", payload)].

Definition dispatch (action : string) (payload : Value) : M unit :=
  b <- get ;;
  let reducer := actions b !! action in
  let sideEffect := sideEffects b !! action in
  match reducer with
  | Some reducer =>
      setData (Transformer (λ state, reducer state payload)) action
  | None => ret tt
  end ;;
  match sideEffect with
  | Some sideEffect =>
      emit [Effect action payload] ;;
      called (sideEffect payload) ;;
      send action (sideEffectRecord payload)
  | None => ret tt
  end.

(** ** Programs over a Brick *)

(** The calls a client can make.  Reading [snapshot] and building an
    observable with [asObservable] or [select] change nothing and emit
    nothing, so they do not appear. *)
Inductive Op : Type :=
  | SetData (setDataArg : SetDataArg) (action : string)
  | RegisterAction (name : string) (reducer : Reducer)
  | RegisterSideEffect (name : string) (effect : SideEffect)
  | Dispatch (action : string) (payload : Value)
  | Subscribe (source : Observable)
  | Unsubscribe (id : nat).

Definition perform (op : Op) : M unit :=
  match op with
  | SetData a l => setData a l
  | RegisterAction n r => registerAction n r
  | RegisterSideEffect n e => registerSideEffect n e
  | Dispatch n p => dispatch n p
  | Subscribe src => subscribe src ;; ret tt
  | Unsubscribe id => unsubscribe id
  end.

(** A client that performs the calls one after the other, catching whatever
    one of them throws and going on with the next. *)
Fixpoint after (ops : list Op) (b : Brick) : Brick :=
  match ops with
  | [] => b
  | op :: rest => after rest (final (perform op b))
  end.

Fixpoint trace (ops : list Op) (b : Brick) : list Event :=
  match ops with
  | [] => []
  | op :: rest => emitted (perform op b) ++ trace rest (final (perform op b))
  end.

(** ** Reading a sequence of events *)

Definition notified (id : nat) (ev : Event) : option Value :=
  match ev with
  | Notify i v => if Nat.eqb i id then Some v else None
  | _ => None
  end.

(** The values one subscription was handed, in order. *)
Definition received (id : nat) (evs : list Event) : list Value :=
  omap (notified id) evs.

Definition installed (ev : Event) : option Value :=
  match ev with
  | Next v => Some v
  | _ => None
  end.

(** The values the subject took, in order. *)
Definition nexts (evs : list Event) : list Value := omap installed evs.

(** What [send] adds to the events of a Brick: nothing without an adapter. *)
Definition reported (b : Brick) (action : string) (payload : Payload)
  : list Event :=
  match devtoolWrapper b with
  | Some _ => [Send action payload]
  | None => []
  end.

(** The events of a state transition made by [dispatch]: the transformer is
    called, the subject takes [v] and notifies, the adapter is told. *)
Definition transitionEvents (b : Brick) (name : string) (v : Value)
  : list Event :=
  Transform (snapshot b) :: Next v
  :: notifications v (observers (subject b))
  ++ reported b name (StateValue v).

(** [x] occurs in [l] and a [y] occurs later. *)
Definition precedes {A} (x y : A) (l : list A) : Prop :=
  ∃ l1 l2 l3, l = l1 ++ x :: l2 ++ y :: l3.

(** Subscriptions are named apart, by numbers already issued. *)
Definition wf (b : Brick) : Prop :=
  NoDup (sid <$> observers (subject b)) ∧
  Forall (λ o, (sid o < issued (subject b))%nat) (observers (subject b)).

(** ** Suppression of consecutive duplicates, as the specification words it

    "subscribers receive selector(value) for the current and each subsequent
    value, but only when the selected value differs from the previously
    emitted selected value under comparator". *)

Fixpoint suppress (same : Value → Value → bool) (prev : Value)
    (keys : list Value) : list Value :=
  match keys with
  | [] => []
  | k :: rest =>
      if same prev k then suppress same prev rest
      else k :: suppress same k rest
  end.

Definition distinctUntilChanged (same : Value → Value → bool)
    (keys : list Value) : list Value :=
  match keys with
  | [] => []
  | k :: rest => k :: suppress same k rest
  end.

(** The key emitted last once [keys] have gone by. *)
Fixpoint lastKept (same : Value → Value → bool) (prev : Value)
    (keys : list Value) : Value :=
  match keys with
  | [] => prev
  | k :: rest =>
      if same prev k then lastKept same prev rest
      else lastKept same k rest
  end.

(** The subscription [id] runs through [sel] and [cmp] and emitted [k] last. *)
Definition tracks (id : nat) (sel : Value → Value)
    (cmp : option (Value → Value → bool)) (k : Value)
    (s : BehaviorSubject) : Prop :=
  mkObserver id (Some (mkPipeline sel cmp (Some k))) ∈ observers s.

(** What a call can do to the subject: nothing, or one [next]. *)
Inductive SubjectEffect (b : Brick) (r : Run unit) : Prop :=
  | Untouched :
      subject (final r) = subject b →
      nexts (emitted r) = [] →
      (∀ id, received id (emitted r) = []) →
      SubjectEffect b r
  | PushedOnce (v : Value) :
      subject (final r) = pushed v (subject b) →
      nexts (emitted r) = [v] →
      (∀ id, received id (emitted r)
             = received id (notifications v (observers (subject b)))) →
      SubjectEffect b r.

(** ** Scenarios

    The Bricks, reducers and effects on which the properties below are
    exercised. *)

(** [(s, p) => ({ count: s.count + p })] on a state object with a numeric
    [count] and a numeric payload, the arguments of the scenario; the object
    it returns is a new one. *)
Definition increment : Reducer := λ s p,
  match s, prop "count" s, p with
  | VObj ref _, VNum c, VNum n => Normal (VObj (S ref) [("count", VNum (c + n))])
  | _, _, _ => Throw (JsError "increment: not a counter")
  end.

Definition counter : Brick := createBrick true (VObj 0 [("count", VNum 0)]).

Definition counterWithInc : Brick :=
  final (registerAction "INC" increment counter).

(** A reducer and an effect that ignore their arguments. *)
Definition reset : Reducer := λ _ _, Normal (VObj 7 [("count", VNum 0)]).
Definition beep : SideEffect := λ _, Normal VUndefined.

(** A counter with one subscriber of the state stream, and with a reducer
    and a side effect both registered under "SAVE". *)
Definition watched : Brick :=
  after [Subscribe asObservable;
         RegisterAction "SAVE" increment;
         RegisterSideEffect "SAVE" beep] counter.

(** A Brick over numbers, without devtools. *)
Definition numeric : Brick := createBrick false (VNum 1).

Definition becomes (n : Z) : Op :=
  SetData (Transformer (λ _, Normal (VNum n))) "SET_DATA".

(** ** Further readings and scenarios *)

(** The states the adapter was told of, in order. *)
Definition reportedState (ev : Event) : option Value :=
  match ev with
  | Send _ (StateValue v) => Some v
  | _ => None
  end.

Definition statesSent (evs : list Event) : list Value := omap reportedState evs.

Definition isSend (ev : Event) : bool :=
  match ev with
  | Send _ _ => true
  | _ => false
  end.

(** The same Brick with no devtool adapter. *)
Definition withoutDevtool (b : Brick) : Brick :=
  mkBrick (subject b) (actions b) (sideEffects b) None.

Definition isRegistration (op : Op) : bool :=
  match op with
  | RegisterAction _ _ | RegisterSideEffect _ _ => true
  | _ => false
  end.

(** A run as it looks without the adapter: the Brick without it, the events
    other than [Send]. *)
Definition unobserved {A} (r : Run A) : Run A :=
  mkRun (withoutDevtool (final r))
    (filter (λ ev, isSend ev = false) (emitted r))
    (completion r).

(** A reducer run over payloads one after the other, from [state]; the first
    throw ends the run. *)
Fixpoint reduceAll (reducer : Reducer) (state : Value) (payloads : list Value)
  : Completion Value :=
  match payloads with
  | [] => Normal state
  | p :: rest =>
      match reducer state p with
      | Normal state' => reduceAll reducer state' rest
      | Throw e => Throw e
      end
  end.

(** The subscription [id] is one to the subject's own stream. *)
Definition plain (id : nat) (s : BehaviorSubject) : Prop :=
  mkObserver id None ∈ observers s.

(** A reducer and an effect that throw. *)
Definition failing : Reducer := λ _ _, Throw (Thrown (VStr "boom")).
Definition crashing : SideEffect := λ _, Throw (Thrown (VStr "crash")).

(** [watched] with, under "BAD", a throwing reducer and an effect; under
    "RISKY", the counter's reducer and a throwing effect; under "PING", an
    effect alone. *)
Definition fragile : Brick :=
  after [RegisterAction "BAD" failing;
         RegisterSideEffect "BAD" beep;
         RegisterAction "RISKY" increment;
         RegisterSideEffect "RISKY" crashing;
         RegisterSideEffect "PING" beep] watched.

(** * Properties of the embedding *)

(** ** Equations of the methods *)

Lemma next_run v b :
  next v b = mkRun (withSubject (pushed v (subject b)) b)
               (Next v :: notifications v (observers (subject b))) (Normal tt).
Proof. reflexivity. Qed.

Lemma send_run action payload b :
  send action payload b = mkRun b (reported b action payload) (Normal tt).
Proof.
  unfold send, reported, bind, get. simpl.
  by destruct (devtoolWrapper b).
Qed.

Lemma setData_direct_object v action b :
  instanceofObject v = true →
  setData (Direct v) action b
  = mkRun (withSubject (pushed v (subject b)) b)
      (reported b action (StateValue v)
       ++ Next v :: notifications v (observers (subject b)))
      (Normal tt).
Proof.
  intros Hobj. unfold setData. rewrite Hobj.
  unfold bind. rewrite send_run. reflexivity.
Qed.

Lemma setData_direct_primitive v action b :
  instanceofObject v = false →
  setData (Direct v) action b = mkRun b [] (Normal tt).
Proof. intros Hprim. unfold setData. by rewrite Hprim. Qed.

Lemma setData_transformer_normal f v action b :
  f (snapshot b) = Normal v →
  setData (Transformer f) action b
  = mkRun (withSubject (pushed v (subject b)) b)
      (Transform (snapshot b) :: Next v
       :: notifications v (observers (subject b))
       ++ reported b action (StateValue v))
      (Normal tt).
Proof.
  intros Hf. unfold setData, bind, get, emit, called. simpl.
  fold (snapshot b). rewrite Hf. simpl.
  unfold reported, withSubject, send, bind, get. simpl.
  by destruct (devtoolWrapper b).
Qed.

Lemma setData_transformer_throw f e action b :
  f (snapshot b) = Throw e →
  setData (Transformer f) action b
  = mkRun b [Transform (snapshot b)] (Throw e).
Proof.
  intros Hf. unfold setData, bind, get, emit, called. simpl.
  fold (snapshot b). by rewrite Hf.
Qed.

(** The two halves of [dispatch], written out. *)
Lemma dispatch_run action payload b :
  dispatch action payload b
  = let r1 := match actions b !! action with
              | Some reducer =>
                  setData (Transformer (λ state, reducer state payload)) action b
              | None => mkRun b [] (Normal tt)
              end in
    match completion r1 with
    | Throw e => mkRun (final r1) (emitted r1) (Throw e)
    | Normal _ =>
        match sideEffects b !! action with
        | None => mkRun (final r1) (emitted r1 ++ []) (Normal tt)
        | Some effect =>
            match effect payload with
            | Normal _ =>
                mkRun (final r1)
                  (emitted r1 ++ Effect action payload
                   :: reported (final r1) action (sideEffectRecord payload))
                  (Normal tt)
            | Throw e =>
                mkRun (final r1) (emitted r1 ++ [Effect action payload]) (Throw e)
            end
        end
    end.
Proof.
  unfold dispatch, bind. cbn [get completion final emitted app].
  destruct (actions b !! action) as [reducer|].
  - destruct (setData _ action b) as [b1 evs1 [[]|e]];
      cbn [completion final emitted]; [|done].
    destruct (sideEffects b !! action) as [effect|]; [|done].
    cbn [emit called completion final emitted app].
    destruct (effect payload); cbn [completion final emitted]; [|done].
    by rewrite send_run.
  - cbn [ret completion final emitted app].
    destruct (sideEffects b !! action) as [effect|]; [|done].
    cbn [emit called completion final emitted app].
    destruct (effect payload); cbn [completion final emitted]; [|done].
    by rewrite send_run.
Qed.

(** ** Reading events *)

Lemma received_app id l1 l2 :
  received id (l1 ++ l2) = received id l1 ++ received id l2.
Proof. apply omap_app. Qed.

Lemma nexts_app l1 l2 : nexts (l1 ++ l2) = nexts l1 ++ nexts l2.
Proof. apply omap_app. Qed.

Lemma received_reported id b action payload :
  received id (reported b action payload) = [].
Proof. unfold reported. by destruct (devtoolWrapper b). Qed.

Lemma nexts_reported b action payload : nexts (reported b action payload) = [].
Proof. unfold reported. by destruct (devtoolWrapper b). Qed.

Lemma not_elem_of_reported b action payload ev :
  (∀ a q, ev ≠ Send a q) → ev ∉ reported b action payload.
Proof.
  intros Hne. unfold reported. destruct (devtoolWrapper b).
  - intros Hin%list_elem_of_singleton. by eapply Hne.
  - apply not_elem_of_nil.
Qed.

(** ** One value through one subscription *)

Lemma sid_deliver v o : sid (fst (deliver v o)) = sid o.
Proof.
  unfold deliver. destruct (through o) as [p|]; [|done].
  destruct (previousKey p) as [prev|]; [|done].
  by destruct (compareWith (comparator p) prev (selector p v)).
Qed.

Lemma deliver_events v o :
  snd (deliver v o) = [] ∨ ∃ x, snd (deliver v o) = [Notify (sid o) x].
Proof.
  unfold deliver. destruct (through o) as [p|]; [|by eauto].
  destruct (previousKey p) as [prev|]; [|by eauto].
  destruct (compareWith (comparator p) prev (selector p v)); by eauto.
Qed.

Lemma received_deliver_ne id v o :
  sid o ≠ id → received id (snd (deliver v o)) = [].
Proof.
  intros Hne. destruct (deliver_events v o) as [->|[x ->]]; [done|].
  unfold received. simpl. by rewrite (proj2 (Nat.eqb_neq _ _) Hne).
Qed.

Lemma received_deliver_plain v o :
  through o = None → received (sid o) (snd (deliver v o)) = [v].
Proof.
  intros Hplain. unfold deliver. rewrite Hplain.
  unfold received. simpl. by rewrite Nat.eqb_refl.
Qed.

Lemma nexts_notifications v os : nexts (notifications v os) = [].
Proof.
  induction os as [|o os IH]; [done|].
  unfold notifications in *. simpl. rewrite nexts_app, IH.
  by destruct (deliver_events v o) as [->|[x ->]].
Qed.

Lemma not_elem_of_notifications v os ev :
  (∀ i x, ev ≠ Notify i x) → ev ∉ notifications v os.
Proof.
  intros Hne. induction os as [|o os IH]; [apply not_elem_of_nil|].
  unfold notifications in *. simpl. rewrite elem_of_app.
  intros [Hin|Hin]; [|done].
  destruct (deliver_events v o) as [Hev|[x Hev]]; rewrite Hev in Hin.
  - by apply elem_of_nil in Hin.
  - apply list_elem_of_singleton in Hin. by eapply Hne.
Qed.

Lemma received_notifications_absent id v os :
  id ∉ sid <$> os → received id (notifications v os) = [].
Proof.
  induction os as [|o os IH]; [done|].
  rewrite fmap_cons, not_elem_of_cons. intros [Hne Hnot].
  unfold notifications in *. simpl.
  rewrite received_app, IH by done.
  by rewrite received_deliver_ne.
Qed.

(** Among subscriptions named apart, the events of one subscription are
    those of its own delivery. *)
Lemma received_notifications v os o :
  NoDup (sid <$> os) → o ∈ os →
  received (sid o) (notifications v os) = received (sid o) (snd (deliver v o)).
Proof.
  induction os as [|o' os IH]; intros Hnodup Hin.
  - by apply elem_of_nil in Hin.
  - rewrite fmap_cons in Hnodup. apply NoDup_cons in Hnodup as [Hfresh Hnodup].
    change (notifications v (o' :: os))
      with (snd (deliver v o') ++ notifications v os).
    rewrite received_app.
    apply elem_of_cons in Hin as [->|Hin].
    + rewrite (received_notifications_absent _ _ _ Hfresh).
      by rewrite app_nil_r.
    + rewrite IH by done. rewrite received_deliver_ne; [done|].
      intros Heq. apply Hfresh. rewrite Heq. by apply list_elem_of_fmap_2.
Qed.

(** ** Subscriptions stay named apart *)

Lemma sid_pushed v (os : list Observer) :
  sid <$> ((λ o, fst (deliver v o)) <$> os) = sid <$> os.
Proof.
  rewrite <- list_fmap_compose. apply list_fmap_ext.
  intros i o _. apply sid_deliver.
Qed.

Lemma wf_createBrick devtools initialData :
  wf (createBrick devtools initialData).
Proof. split; simpl; constructor. Qed.

Lemma wf_same_subject b b' : subject b' = subject b → wf b → wf b'.
Proof. unfold wf. by intros ->. Qed.

Lemma wf_pushed v b b' : subject b' = pushed v (subject b) → wf b → wf b'.
Proof.
  unfold wf. intros -> [Hnodup Hissued]. simpl. split.
  - by rewrite sid_pushed.
  - apply Forall_fmap. eapply Forall_impl; [exact Hissued|].
    intros o Ho. simpl. by rewrite sid_deliver.
Qed.

(** ** What each method touches *)

Lemma registerAction_run name reducer b :
  registerAction name reducer b
  = match actions b !! name with
    | Some _ => mkRun b [] (Throw (duplicateAction name))
    | None => mkRun (withActions (<[name := reducer]> (actions b)) b) []
                (Normal tt)
    end.
Proof.
  unfold registerAction, bind. cbn [get completion final emitted app].
  by destruct (actions b !! name).
Qed.

Lemma registerSideEffect_run name effect b :
  registerSideEffect name effect b
  = match sideEffects b !! name with
    | Some _ => mkRun b [] (Throw (duplicateSideEffect name))
    | None => mkRun (withSideEffects (<[name := effect]> (sideEffects b)) b) []
                (Normal tt)
    end.
Proof.
  unfold registerSideEffect, bind. cbn [get completion final emitted app].
  by destruct (sideEffects b !! name).
Qed.

Lemma setData_effect arg action b : SubjectEffect b (setData arg action b).
Proof.
  destruct arg as [f|v].
  - destruct (f (snapshot b)) as [v|e] eqn:Hf.
    + rewrite (setData_transformer_normal _ _ _ _ Hf).
      apply PushedOnce with v; cbn [final emitted subject withSubject].
      * done.
      * change (nexts (Transform ?s :: Next ?x :: ?l)) with (x :: nexts l).
        by rewrite nexts_app, nexts_notifications, nexts_reported.
      * intros id.
        change (received id (Transform ?s :: Next ?x :: ?l)) with (received id l).
        by rewrite received_app, received_reported, app_nil_r.
    + rewrite (setData_transformer_throw _ _ _ _ Hf). by apply Untouched.
  - destruct (instanceofObject v) eqn:Hobj.
    + rewrite (setData_direct_object _ _ _ Hobj).
      apply PushedOnce with v; cbn [final emitted subject withSubject].
      * done.
      * rewrite nexts_app, nexts_reported.
        change (nexts (Next ?x :: ?l)) with (x :: nexts l).
        by rewrite nexts_notifications.
      * intros id. by rewrite received_app, received_reported.
    + rewrite (setData_direct_primitive _ _ _ Hobj). by apply Untouched.
Qed.

Lemma setData_frame arg action b :
  actions (final (setData arg action b)) = actions b ∧
  sideEffects (final (setData arg action b)) = sideEffects b ∧
  devtoolWrapper (final (setData arg action b)) = devtoolWrapper b.
Proof.
  destruct arg as [f|v].
  - destruct (f (snapshot b)) as [v|e] eqn:Hf.
    + by rewrite (setData_transformer_normal _ _ _ _ Hf).
    + by rewrite (setData_transformer_throw _ _ _ _ Hf).
  - destruct (instanceofObject v) eqn:Hobj.
    + by rewrite (setData_direct_object _ _ _ Hobj).
    + by rewrite (setData_direct_primitive _ _ _ Hobj).
Qed.

(** [dispatch] ends in the Brick its first half leaves, and adds to the
    events of that half only an [Effect] and a [Send]. *)
Lemma dispatch_halves action payload b :
  ∃ r1 : Run unit,
    r1 = match actions b !! action with
         | Some reducer =>
             setData (Transformer (λ state, reducer state payload)) action b
         | None => mkRun b [] (Normal tt)
         end ∧
    final (dispatch action payload b) = final r1 ∧
    ∃ tail, emitted (dispatch action payload b) = emitted r1 ++ tail ∧
            nexts tail = [] ∧ ∀ id, received id tail = [].
Proof.
  rewrite dispatch_run. eexists. split; [reflexivity|].
  cbv zeta.
  match goal with |- context [completion ?r] => generalize r end.
  intros r1. destruct (completion r1).
  - destruct (sideEffects b !! action) as [effect|].
    + destruct (effect payload); cbn [final emitted]; (split; [done|]);
        eexists; (split; [reflexivity|]).
      * change (nexts (Effect ?a ?p :: ?l)) with (nexts l).
        split; [apply nexts_reported|]. intros id.
        change (received id (Effect ?a ?p :: ?l)) with (received id l).
        apply received_reported.
      * done.
    + cbn [final emitted]. split; [done|]. by exists [].
  - cbn [final emitted]. split; [done|]. exists []. by rewrite app_nil_r.
Qed.

Lemma dispatch_effect action payload b :
  SubjectEffect b (dispatch action payload b).
Proof.
  destruct (dispatch_halves action payload b)
    as (r1 & Hr1 & Hfinal & tail & Hev & Hnexts & Hrecv).
  assert (Hhalf : SubjectEffect b r1).
  { rewrite Hr1. destruct (actions b !! action); [apply setData_effect|].
    by apply Untouched. }
  destruct Hhalf as [Hsub Hn Hr|v Hsub Hn Hr].
  - apply Untouched.
    + by rewrite Hfinal.
    + by rewrite Hev, nexts_app, Hn, Hnexts.
    + intros id. by rewrite Hev, received_app, Hr, Hrecv.
  - apply PushedOnce with v.
    + by rewrite Hfinal.
    + by rewrite Hev, nexts_app, Hn, Hnexts.
    + intros id. by rewrite Hev, received_app, Hr, Hrecv, app_nil_r.
Qed.

Lemma dispatch_frame action payload b :
  actions (final (dispatch action payload b)) = actions b ∧
  sideEffects (final (dispatch action payload b)) = sideEffects b ∧
  devtoolWrapper (final (dispatch action payload b)) = devtoolWrapper b.
Proof.
  destruct (dispatch_halves action payload b) as (r1 & Hr1 & Hfinal & _).
  rewrite Hfinal, Hr1.
  destruct (actions b !! action); [apply setData_frame|done].
Qed.

Lemma registerAction_effect name reducer b :
  SubjectEffect b (registerAction name reducer b).
Proof.
  rewrite registerAction_run.
  destruct (actions b !! name); by apply Untouched.
Qed.

Lemma registerSideEffect_effect name effect b :
  SubjectEffect b (registerSideEffect name effect b).
Proof.
  rewrite registerSideEffect_run.
  destruct (sideEffects b !! name); by apply Untouched.
Qed.

Lemma subscribe_run source b :
  subscribe source b
  = let s := subject b in
    let fresh := deliver (value s) (mkObserver (issued s) (pipelineOf source)) in
    mkRun (withSubject
             (mkSubject (value s) (observers s ++ [fst fresh]) (S (issued s))) b)
      (snd fresh) (Normal (issued s)).
Proof.
  unfold subscribe, bind.
  cbn [get put emit ret completion final emitted app]. by rewrite app_nil_r.
Qed.

Lemma NoDup_sid_filter (P : Observer → Prop) `{∀ o, Decision (P o)} os :
  NoDup (sid <$> os) → NoDup (sid <$> filter P os).
Proof.
  induction os as [|o os IH]; [done|].
  rewrite fmap_cons, NoDup_cons, filter_cons. intros [Hfresh Hnodup].
  destruct (decide (P o)); [|by apply IH].
  rewrite fmap_cons, NoDup_cons. split; [|by apply IH].
  intros (o' & Heq & Hin)%list_elem_of_fmap. apply Hfresh.
  apply list_elem_of_fmap. exists o'. split; [done|].
  by apply list_elem_of_filter in Hin as [_ Hin].
Qed.

Lemma wf_perform op b : wf b → wf (final (perform op b)).
Proof.
  intros Hwf.
  assert (Heffect : ∀ r, SubjectEffect b r → wf (final r)).
  { intros r [Hsub _ _|v Hsub _ _].
    - by apply (wf_same_subject b).
    - by apply (wf_pushed v b). }
  destruct op as [arg action|name reducer|name effect|action payload|source|id];
    cbn [perform].
  - apply Heffect, setData_effect.
  - apply Heffect, registerAction_effect.
  - apply Heffect, registerSideEffect_effect.
  - apply Heffect, dispatch_effect.
  - unfold bind. rewrite subscribe_run.
    cbn [ret completion final emitted subject withSubject].
    destruct Hwf as [Hnodup Hissued]. unfold wf, withSubject.
    cbn [subject observers issued]. split.
    + rewrite fmap_app. apply NoDup_app. split; [done|]. split.
      * intros i Hi. cbn [fmap list_fmap]. rewrite sid_deliver.
        cbn [sid]. intros ->%list_elem_of_singleton.
        apply list_elem_of_fmap in Hi as (o & Heq & Hin).
        rewrite Forall_forall in Hissued. specialize (Hissued o Hin). lia.
      * apply NoDup_singleton.
    + apply Forall_app. split.
      * eapply Forall_impl; [exact Hissued|]. intros o Ho. simpl in *. lia.
      * apply Forall_singleton. rewrite sid_deliver. simpl. lia.
  - destruct Hwf as [Hnodup Hissued]. unfold wf, unsubscribe, bind, withSubject.
    cbn [get put completion final emitted subject observers issued].
    split.
    + by apply NoDup_sid_filter.
    + rewrite Forall_forall in *. intros o Hin.
      apply list_elem_of_filter in Hin as [_ Hin]. by apply Hissued.
Qed.

Lemma wf_after ops b : wf b → wf (after ops b).
Proof.
  revert b. induction ops as [|op ops IH]; intros b Hwf; [done|].
  simpl. by apply IH, wf_perform.
Qed.

(** ** A subscription made through [select] *)

Lemma suppress_app same prev l1 l2 :
  suppress same prev (l1 ++ l2)
  = suppress same prev l1 ++ suppress same (lastKept same prev l1) l2.
Proof.
  revert prev. induction l1 as [|k l1 IH]; intros prev; [done|].
  simpl. destruct (same prev k); [apply IH|]. by rewrite IH.
Qed.

Lemma lastKept_app same prev l1 l2 :
  lastKept same prev (l1 ++ l2) = lastKept same (lastKept same prev l1) l2.
Proof.
  revert prev. induction l1 as [|k l1 IH]; intros prev; [done|].
  simpl. destruct (same prev k); apply IH.
Qed.

Section Tracked.
Variables (id : nat) (sel : Value → Value)
          (cmp : option (Value → Value → bool)).


Lemma tracks_pushed k v s :
  tracks id sel cmp k s →
  tracks id sel cmp (lastKept (compareWith cmp) k [sel v]) (pushed v s).
Proof.
  unfold tracks, pushed. cbn [observers]. intros Hin.
  apply list_elem_of_fmap.
  exists (mkObserver id (Some (mkPipeline sel cmp (Some k)))).
  split; [|done]. unfold deliver. simpl.
  by destruct (compareWith cmp k (sel v)).
Qed.

Lemma received_tracked k v s :
  NoDup (sid <$> observers s) → tracks id sel cmp k s →
  received id (notifications v (observers s)) = suppress (compareWith cmp) k [sel v].
Proof.
  intros Hnodup Hin.
  rewrite (received_notifications v _ _ Hnodup Hin : received id _ = _).
  unfold deliver. simpl.
  destruct (compareWith cmp k (sel v)); [done|].
  unfold received. simpl. by rewrite Nat.eqb_refl.
Qed.

(** One call: the subscription receives the keys of the values the subject
    took, less the suppressed ones, and keeps track of the last one. *)
Lemma perform_tracked op b k :
  wf b → tracks id sel cmp k (subject b) → op ≠ Unsubscribe id →
  tracks id sel cmp (lastKept (compareWith cmp) k (sel <$> nexts (emitted (perform op b))))
    (subject (final (perform op b))) ∧
  received id (emitted (perform op b))
  = suppress (compareWith cmp) k (sel <$> nexts (emitted (perform op b))).
Proof.
  intros [Hnodup Hissued] Htracks Hop.
  assert (Heffect : ∀ r, SubjectEffect b r →
    tracks id sel cmp (lastKept (compareWith cmp) k (sel <$> nexts (emitted r)))
      (subject (final r)) ∧
    received id (emitted r) = suppress (compareWith cmp) k (sel <$> nexts (emitted r))).
  { intros r [Hsub Hn Hr|v Hsub Hn Hr]; rewrite Hsub, Hn, Hr.
    - done.
    - split; [by apply tracks_pushed|by apply received_tracked]. }
  destruct op as [arg action|name reducer|name effect|action payload|source|id'];
    cbn [perform].
  - apply Heffect, setData_effect.
  - apply Heffect, registerAction_effect.
  - apply Heffect, registerSideEffect_effect.
  - apply Heffect, dispatch_effect.
  - unfold bind. rewrite subscribe_run.
    cbn [ret completion final emitted]. unfold withSubject.
    cbn [subject]. rewrite app_nil_r.
    set (fresh := mkObserver (issued (subject b)) (pipelineOf source)).
    assert (Hquiet : nexts (snd (deliver (value (subject b)) fresh)) = []).
    { by destruct (deliver_events (value (subject b)) fresh) as [->|[x ->]]. }
    rewrite Hquiet. split.
    + unfold tracks. cbn [observers lastKept fmap list_fmap].
      apply elem_of_app. by left.
    + apply received_deliver_ne. subst fresh. cbn [sid].
      rewrite Forall_forall in Hissued.
      specialize (Hissued _ Htracks). simpl in Hissued. lia.
  - unfold unsubscribe, bind.
    cbn [get put completion final emitted]. unfold withSubject.
    cbn [subject]. split; [|done].
    unfold tracks. cbn [observers app nexts omap lastKept fmap list_fmap].
    apply list_elem_of_filter. split; [|done].
    simpl. intros <-. by apply Hop.
Qed.

Lemma trace_tracked ops b k :
  wf b → tracks id sel cmp k (subject b) → Unsubscribe id ∉ ops →
  received id (trace ops b) = suppress (compareWith cmp) k (sel <$> nexts (trace ops b)).
Proof.
  revert b k. induction ops as [|op ops IH]; intros b k Hwf Htracks Hops; [done|].
  apply not_elem_of_cons in Hops as [Hop Hops].
  destruct (perform_tracked op b k Hwf Htracks) as [Htracks' Hrecv]; [done|].
  cbn [trace].
  rewrite received_app, nexts_app, fmap_app, suppress_app, Hrecv.
  f_equal. apply IH; [by apply wf_perform|done|done].
Qed.
End Tracked.

(** * Properties of the container *)

(** ** setData *)

(** C1, as stated, fails: a primitive handed to [setData] is ignored.  On a
    Brick holding 0 with one subscriber, [setData(5)] leaves the snapshot at 0
    and notifies nobody. *)
Lemma setData_primitive_is_ignored :
  let b := final (subscribe asObservable (createBrick true (VNum 0))) in
  let r := setData1 (Direct (VNum 5)) b in
  observers (subject b) = [mkObserver 0 None] ∧
  snapshot (final r) = VNum 0 ∧
  snapshot (final r) ≠ VNum 5 ∧
  received 0 (emitted r) = [] ∧
  emitted r = [].
Proof. by repeat split. Qed.

(** C1, amended: for every value [v2] that is an object, [setData(v2)]
    returns normally, installs [v2] as the current value, calls
    [subject.next] once, and every subscription to the state stream that
    existed before the call receives exactly one notification, carrying
    [v2]; nothing depends on the previous value. *)
Theorem setData_object_installs_and_notifies b v2 action :
  wf b → instanceofObject v2 = true →
  let r := setData (Direct v2) action b in
  completion r = Normal tt ∧
  snapshot (final r) = v2 ∧
  strictEquals (snapshot (final r)) v2 = true ∧
  nexts (emitted r) = [v2] ∧
  ∀ o, o ∈ observers (subject b) → through o = None →
       received (sid o) (emitted r) = [v2].
Proof.
  intros [Hnodup _] Hobj r. subst r.
  rewrite (setData_direct_object _ _ _ Hobj).
  cbn [completion final emitted]. repeat split.
  - destruct v2; try discriminate Hobj. simpl. apply Nat.eqb_refl.
  - rewrite nexts_app, nexts_reported.
    change (nexts (Next ?x :: ?l)) with (x :: nexts l).
    by rewrite nexts_notifications.
  - intros o Hin Hplain.
    rewrite received_app, received_reported.
    change (received ?i (Next ?x :: ?l)) with (received i l).
    rewrite (received_notifications _ _ _ Hnodup Hin).
    by apply received_deliver_plain.
Qed.

(** The object set is the one already held: the subscriber is notified all
    the same. *)
Lemma setData_object_installs_and_notifies_witness :
  let v := VObj 0 [("count", VNum 0)] in
  let r := setData (Direct v) "SET_DATA" watched in
  snapshot watched = v ∧
  completion r = Normal tt ∧
  snapshot (final r) = v ∧
  strictEquals (snapshot (final r)) v = true ∧
  nexts (emitted r) = [v] ∧
  ∀ o, o ∈ observers (subject watched) → through o = None →
       received (sid o) (emitted r) = [v].
Proof.
  split; [reflexivity|].
  apply (setData_object_installs_and_notifies watched
           (VObj 0 [("count", VNum 0)]) "SET_DATA").
  - split; simpl; [apply NoDup_singleton|repeat constructor].
  - reflexivity.
Defined.

(** C9: a primitive given directly is ignored — the Brick, its subscribers
    and the adapter see nothing — while a transformer returning that same
    primitive has it installed and published: the function branch does not
    look at the shape of its result. *)
Theorem setData_shape_check_only_on_direct_values b p f action :
  wf b → instanceofObject p = false → f (snapshot b) = Normal p →
  setData (Direct p) action b = mkRun b [] (Normal tt) ∧
  let r := setData (Transformer f) action b in
  completion r = Normal tt ∧
  snapshot (final r) = p ∧
  nexts (emitted r) = [p] ∧
  ∀ o, o ∈ observers (subject b) → through o = None →
       received (sid o) (emitted r) = [p].
Proof.
  intros [Hnodup _] Hprim Hf. split.
  - by apply setData_direct_primitive.
  - intros r. subst r. rewrite (setData_transformer_normal _ _ _ _ Hf).
    cbn [completion final emitted]. repeat split.
    + change (nexts (Transform ?s :: Next ?x :: ?l)) with (x :: nexts l).
      by rewrite nexts_app, nexts_notifications, nexts_reported.
    + intros o Hin Hplain.
      change (received ?i (Transform ?s :: Next ?x :: ?l)) with (received i l).
      rewrite received_app, received_reported, app_nil_r.
      rewrite (received_notifications _ _ _ Hnodup Hin).
      by apply received_deliver_plain.
Qed.

Lemma setData_shape_check_only_on_direct_values_witness :
  let f := λ _ : Value, Normal (VNum 5) in
  setData (Direct (VNum 5)) "SET_DATA" watched = mkRun watched [] (Normal tt) ∧
  let r := setData (Transformer f) "SET_DATA" watched in
  completion r = Normal tt ∧
  snapshot (final r) = VNum 5 ∧
  nexts (emitted r) = [VNum 5] ∧
  ∀ o, o ∈ observers (subject watched) → through o = None →
       received (sid o) (emitted r) = [VNum 5].
Proof.
  apply (setData_shape_check_only_on_direct_values watched (VNum 5)
           (λ _, Normal (VNum 5)) "SET_DATA").
  - split; simpl; [apply NoDup_singleton|repeat constructor].
  - reflexivity.
  - reflexivity.
Defined.

(** ** registerAction and registerSideEffect *)

(** C4: registering under a name that the registry already holds throws the
    duplicate-name error of that registry and changes nothing in the Brick;
    the entry registered first is still the one found under the name. *)
Theorem register_duplicate_throws b name :
  (∀ first second, actions b !! name = Some first →
     registerAction name second b = mkRun b [] (Throw (duplicateAction name)) ∧
     actions (final (registerAction name second b)) !! name = Some first) ∧
  (∀ first second, sideEffects b !! name = Some first →
     registerSideEffect name second b
     = mkRun b [] (Throw (duplicateSideEffect name)) ∧
     sideEffects (final (registerSideEffect name second b)) !! name
     = Some first).
Proof.
  split; intros first second Hfirst.
  - rewrite registerAction_run, Hfirst. by split.
  - rewrite registerSideEffect_run, Hfirst. by split.
Qed.

Lemma register_duplicate_throws_witness :
  (completion (registerAction "SAVE" reset watched)
   = Throw (JsError ("Action with the name " +:+ quote +:+ "SAVE" +:+ quote
                     +:+ " is already registered.")) ∧
   final (registerAction "SAVE" reset watched) = watched ∧
   actions (final (registerAction "SAVE" reset watched)) !! "SAVE"
   = Some increment) ∧
  (completion (registerSideEffect "SAVE" (λ _, Throw (Thrown VNull)) watched)
   = Throw (duplicateSideEffect "SAVE") ∧
   sideEffects
     (final (registerSideEffect "SAVE" (λ _, Throw (Thrown VNull)) watched))
   !! "SAVE" = Some beep).
Proof.
  destruct (register_duplicate_throws watched "SAVE") as [Hactions Heffects].
  split.
  - destruct (Hactions increment reset) as [Hrun Hkept]; [reflexivity|].
    rewrite Hrun. by repeat split.
  - destruct (Heffects beep (λ _, Throw (Thrown VNull))) as [Hrun Hkept];
      [reflexivity|].
    rewrite Hrun. by repeat split.
Defined.

(** C10: whether it succeeds or throws, a registration leaves the subject
    (the snapshot and the subscriptions), the adapter and the other registry
    as they were, and emits no event: no notification, nothing sent to the
    devtool adapter. *)
Theorem register_touches_only_its_registry b name reducer effect :
  let ra := registerAction name reducer b in
  let re := registerSideEffect name effect b in
  (snapshot (final ra) = snapshot b ∧ emitted ra = [] ∧
   subject (final ra) = subject b ∧
   devtoolWrapper (final ra) = devtoolWrapper b ∧
   sideEffects (final ra) = sideEffects b) ∧
  (snapshot (final re) = snapshot b ∧ emitted re = [] ∧
   subject (final re) = subject b ∧
   devtoolWrapper (final re) = devtoolWrapper b ∧
   actions (final re) = actions b).
Proof.
  intros ra re. subst ra re.
  rewrite registerAction_run, registerSideEffect_run.
  destruct (actions b !! name), (sideEffects b !! name); by repeat split.
Qed.

(** ** dispatch *)

(** C2: when [r] is the reducer registered under [X] and [r(s, p)] is the
    value [v], for [s] the snapshot before the call, [dispatch(X, p)] leaves
    [v] as the snapshot, having called [subject.next] once, with [v]. *)
Theorem dispatch_applies_reducer b X r p v :
  actions b !! X = Some r → r (snapshot b) p = Normal v →
  snapshot (final (dispatch X p b)) = v ∧
  nexts (emitted (dispatch X p b)) = [v].
Proof.
  intros Hr Hv.
  destruct (dispatch_halves X p b)
    as (r1 & Hr1 & Hfinal & tail & Hev & Hnexts & _).
  rewrite Hr in Hr1.
  rewrite (setData_transformer_normal (λ state, r state p) v) in Hr1 by done.
  rewrite Hfinal, Hev, Hr1. cbn [final emitted]. split; [done|].
  rewrite nexts_app, Hnexts, app_nil_r.
  change (nexts (Transform ?s :: Next ?x :: ?l)) with (x :: nexts l).
  by rewrite nexts_app, nexts_notifications, nexts_reported.
Qed.

(** The scenario of the specification: from [{count: 0}], INC by 5 and then
    by 3 leaves [{count: 8}]. *)
Lemma dispatch_applies_reducer_witness :
  let b5 := final (dispatch "INC" (VNum 5) counterWithInc) in
  let b8 := final (dispatch "INC" (VNum 3) b5) in
  prop "count" (snapshot counterWithInc) = VNum 0 ∧
  (snapshot b5 = VObj 1 [("count", VNum 5)] ∧
   nexts (emitted (dispatch "INC" (VNum 5) counterWithInc))
   = [VObj 1 [("count", VNum 5)]]) ∧
  (snapshot b8 = VObj 2 [("count", VNum 8)] ∧
   nexts (emitted (dispatch "INC" (VNum 3) b5)) = [VObj 2 [("count", VNum 8)]]).
Proof.
  split; [reflexivity|]. split.
  - apply (dispatch_applies_reducer counterWithInc "INC" increment (VNum 5)
             (VObj 1 [("count", VNum 5)])); reflexivity.
  - apply (dispatch_applies_reducer
             (final (dispatch "INC" (VNum 5) counterWithInc)) "INC" increment
             (VNum 3) (VObj 2 [("count", VNum 8)])); reflexivity.
Defined.

(** C5: dispatching a name that neither registry holds returns normally and
    is without effect: the Brick is the same afterwards (snapshot included)
    and no event is emitted — no [next], no notification, no callback, no
    report. *)
Theorem dispatch_unknown_is_noop b name p :
  actions b !! name = None → sideEffects b !! name = None →
  dispatch name p b = mkRun b [] (Normal tt).
Proof.
  intros Hactions Heffects. rewrite dispatch_run, Hactions, Heffects.
  reflexivity.
Qed.

Lemma dispatch_unknown_is_noop_witness :
  dispatch "unknown" (VStr "p") watched = mkRun watched [] (Normal tt).
Proof.
  apply (dispatch_unknown_is_noop watched "unknown" (VStr "p")); reflexivity.
Defined.

Lemma dispatch_both_run b name reducer effect p v :
  actions b !! name = Some reducer →
  sideEffects b !! name = Some effect →
  reducer (snapshot b) p = Normal v →
  emitted (dispatch name p b)
  = transitionEvents b name v ++ Effect name p
    :: match effect p with
       | Normal _ => reported b name (sideEffectRecord p)
       | Throw _ => []
       end ∧
  snapshot (final (dispatch name p b)) = v.
Proof.
  intros Hreducer Heffect Hv. rewrite dispatch_run, Hreducer, Heffect.
  rewrite (setData_transformer_normal (λ state, reducer state p) v) by done.
  cbv zeta. cbn [completion final emitted].
  destruct (effect p); cbn [final emitted]; by split.
Qed.

Lemma transitionEvents_no_side_effect b name v :
  (∀ a q, Effect a q ∉ transitionEvents b name v) ∧
  (∀ a q, Send a (Literal q) ∉ transitionEvents b name v).
Proof.
  unfold transitionEvents. split; intros a q Hin.
  - apply elem_of_cons in Hin as [?|Hin]; [done|].
    apply elem_of_cons in Hin as [?|Hin]; [done|].
    apply elem_of_app in Hin as [Hin|Hin]; revert Hin.
    + by apply not_elem_of_notifications.
    + by apply not_elem_of_reported.
  - apply elem_of_cons in Hin as [?|Hin]; [done|].
    apply elem_of_cons in Hin as [?|Hin]; [done|].
    apply elem_of_app in Hin as [Hin|Hin]; revert Hin.
    + by apply not_elem_of_notifications.
    + unfold reported. destruct (devtoolWrapper b).
      * by intros ?%list_elem_of_singleton.
      * apply not_elem_of_nil.
Qed.

(** C3: with a reducer and a side effect both registered under a name, and
    the reducer returning [v], the events of [dispatch] are, in this order:
    the state transition ([next v] and the notifications it causes) and its
    report to the adapter, then the call of the side effect, then the side
    effect's own report.  Nothing of the transition comes after the side
    effect's call and no side-effect call or side-effect report comes before
    it. *)
Theorem dispatch_transition_before_side_effect b name reducer effect p v :
  actions b !! name = Some reducer →
  sideEffects b !! name = Some effect →
  reducer (snapshot b) p = Normal v →
  let r := dispatch name p b in
  let transition :=
    Transform (snapshot b) :: Next v
    :: notifications v (observers (subject b))
    ++ reported b name (StateValue v) in
  let report :=
    match effect p with
    | Normal _ => reported b name (sideEffectRecord p)
    | Throw _ => []
    end in
  emitted r = transition ++ Effect name p :: report ∧
  snapshot (final r) = v ∧
  Next v ∈ transition ∧
  (∀ d, devtoolWrapper b = Some d → Send name (StateValue v) ∈ transition) ∧
  (∀ a q, Effect a q ∉ transition) ∧
  (∀ a q, Send a (Literal q) ∉ transition) ∧
  (∀ x, Next x ∉ report) ∧
  (∀ a x, Send a (StateValue x) ∉ report) ∧
  precedes (Next v) (Effect name p) (emitted r).
Proof.
  intros Hreducer Heffect Hv r transition report.
  destruct (dispatch_both_run b name reducer effect p v Hreducer Heffect Hv)
    as [Hemitted Hsnapshot].
  destruct (transitionEvents_no_side_effect b name v) as [Hcalls Hrecords].
  split; [done|]. split; [done|]. subst transition report. repeat split.
  - apply elem_of_cons. right. apply elem_of_cons. by left.
  - intros d Hd. do 2 (apply elem_of_cons; right).
    apply elem_of_app. right. unfold reported. rewrite Hd.
    by apply list_elem_of_singleton.
  - exact Hcalls.
  - exact Hrecords.
  - intros x. destruct (effect p); [|apply not_elem_of_nil].
    by apply not_elem_of_reported.
  - intros a x. destruct (effect p); [|apply not_elem_of_nil].
    unfold reported. destruct (devtoolWrapper b).
    + by intros ?%list_elem_of_singleton.
    + apply not_elem_of_nil.
  - subst r. rewrite Hemitted. exists [Transform (snapshot b)]. eexists. eexists.
    unfold transitionEvents. cbn [app]. reflexivity.
Qed.

(** On [watched], where "SAVE" names both a reducer and a side effect and
    the adapter is present, the four events come in the order transition,
    report, side effect, side-effect report. *)
Lemma dispatch_transition_before_side_effect_witness :
  let v := VObj 1 [("count", VNum 2)] in
  emitted (dispatch "SAVE" (VNum 2) watched)
  = [Transform (VObj 0 [("count", VNum 0)]); Next v; Notify 0 v;
     Send "SAVE" (StateValue v);
     Effect "SAVE" (VNum 2);
     Send "SAVE" (Literal [("type", VStr "sideEffect"); ("payload", VNum 2)])]
  ∧ snapshot (final (dispatch "SAVE" (VNum 2) watched)) = v.
Proof.
  intros v.
  destruct (dispatch_transition_before_side_effect watched "SAVE" increment
              beep (VNum 2) v) as (Hemitted & Hsnapshot & _);
    [reflexivity|reflexivity|reflexivity|].
  split; [exact Hemitted|exact Hsnapshot].
Defined.

(** C6, as stated, fails on the record: the adapter is handed
    [{type: 'sideEffect', payload}], and no record with a [kind] field. *)
Lemma dispatch_reports_type_not_kind :
  let evs := emitted (dispatch "SAVE" (VNum 2) watched) in
  (Effect "SAVE" (VNum 2) ∈ evs) ∧
  (Send "SAVE" (Literal [("kind", VStr "sideEffect"); ("payload", VNum 2)])
   ∉ evs) ∧
  (Send "SAVE" (Literal [("type", VStr "sideEffect"); ("payload", VNum 2)])
   ∈ evs).
Proof.
  cbv zeta.
  change (emitted (dispatch "SAVE" (VNum 2) watched))
    with [Transform (VObj 0 [("count", VNum 0)]);
          Next (VObj 1 [("count", VNum 2)]);
          Notify 0 (VObj 1 [("count", VNum 2)]);
          Send "SAVE" (StateValue (VObj 1 [("count", VNum 2)]));
          Effect "SAVE" (VNum 2);
          Send "SAVE"
            (Literal [("type", VStr "sideEffect"); ("payload", VNum 2)])].
  split; [|split].
  - do 4 (apply elem_of_cons; right). apply elem_of_cons. by left.
  - intros Hin.
    repeat (apply elem_of_cons in Hin as [Hin|Hin]; [discriminate Hin|]).
    by apply elem_of_nil in Hin.
  - do 5 (apply elem_of_cons; right). apply elem_of_cons. by left.
Qed.

(** C6, amended: when a side effect is registered under the name and the
    reducer registered under it, if any, returns normally, [dispatch] calls
    the side effect with [p], once and after everything else; if the call
    returns normally and an adapter is present, the adapter is then sent the
    name with the record [{type: 'sideEffect', payload: p}], and that is the
    last event.  No side-effect record is sent before the call. *)
Theorem dispatch_side_effect_then_report b name effect p :
  sideEffects b !! name = Some effect →
  (∀ reducer, actions b !! name = Some reducer →
              ∃ v, reducer (snapshot b) p = Normal v) →
  ∃ before,
    emitted (dispatch name p b)
    = before ++ Effect name p
      :: match effect p with
         | Normal _ =>
             reported b name
               (Literal [("type", VStr "sideEffect"); ("payload", p)])
         | Throw _ => []
         end ∧
    (∀ a q, Effect a q ∉ before) ∧
    (∀ a q, Send a (Literal q) ∉ before).
Proof.
  intros Heffect Hreturns.
  destruct (actions b !! name) as [reducer|] eqn:Hreducer.
  - destruct (Hreturns reducer eq_refl) as [v Hv].
    destruct (dispatch_both_run b name reducer effect p v Hreducer Heffect Hv)
      as [Hemitted _].
    exists (transitionEvents b name v). split; [exact Hemitted|].
    apply transitionEvents_no_side_effect.
  - exists []. rewrite dispatch_run, Hreducer, Heffect.
    cbv zeta. cbn [completion final emitted app].
    split; [by destruct (effect p)|].
    split; intros; apply not_elem_of_nil.
Qed.

Lemma dispatch_side_effect_then_report_witness :
  ∃ before,
    emitted (dispatch "SAVE" (VNum 2) watched)
    = before ++ [Effect "SAVE" (VNum 2);
                 Send "SAVE"
                   (Literal [("type", VStr "sideEffect"); ("payload", VNum 2)])]
    ∧ (∀ a q, Effect a q ∉ before) ∧ (∀ a q, Send a (Literal q) ∉ before).
Proof.
  apply (dispatch_side_effect_then_report watched "SAVE" beep (VNum 2)).
  - reflexivity.
  - intros reducer Hreducer. exists (VObj 1 [("count", VNum 2)]).
    assert (Hinc : Some reducer = Some increment)
      by (rewrite <- Hreducer; reflexivity).
    injection Hinc as ->. reflexivity.
Defined.

(** ** The registries *)

Lemma perform_keeps_registered op b name :
  (∀ reducer, actions b !! name = Some reducer →
              actions (final (perform op b)) !! name = Some reducer) ∧
  (∀ effect, sideEffects b !! name = Some effect →
             sideEffects (final (perform op b)) !! name = Some effect).
Proof.
  destruct op as [arg action|name' reducer'|name' effect'|action payload|source|id];
    cbn [perform].
  - destruct (setData_frame arg action b) as (-> & -> & _). by split.
  - rewrite registerAction_run.
    destruct (actions b !! name') eqn:Hname'; [by split|].
    cbn [final actions sideEffects withActions]. split; [|done].
    intros reducer Hreducer. rewrite lookup_insert_ne; [done|].
    intros ->. congruence.
  - rewrite registerSideEffect_run.
    destruct (sideEffects b !! name') eqn:Hname'; [by split|].
    cbn [final actions sideEffects withSideEffects]. split; [done|].
    intros effect Heffect. rewrite lookup_insert_ne; [done|].
    intros ->. congruence.
  - destruct (dispatch_frame action payload b) as (-> & -> & _). by split.
  - unfold bind. rewrite subscribe_run. by split.
  - by split.
Qed.

(** C8: through any sequence of calls — [setData], registrations (also
    failing ones), [dispatch], subscribing and unsubscribing — a name found
    in a registry is still found there afterwards, with the same function. *)
Theorem registries_never_shrink ops b name :
  (∀ reducer, actions b !! name = Some reducer →
              actions (after ops b) !! name = Some reducer) ∧
  (∀ effect, sideEffects b !! name = Some effect →
             sideEffects (after ops b) !! name = Some effect).
Proof.
  revert b. induction ops as [|op ops IH]; intros b; [by split|].
  cbn [after].
  destruct (perform_keeps_registered op b name) as [Hactions Heffects].
  destruct (IH (final (perform op b))) as [IHactions IHeffects].
  split; eauto.
Qed.

Lemma registries_never_shrink_witness :
  let ops := [RegisterAction "SAVE" reset;
              Dispatch "SAVE" (VNum 1);
              SetData (Direct (VObj 9 [])) "SET_DATA";
              RegisterSideEffect "SAVE" (λ _, Throw (Thrown VNull));
              Dispatch "other" VNull;
              Unsubscribe 0] in
  actions (after ops watched) !! "SAVE" = Some increment ∧
  sideEffects (after ops watched) !! "SAVE" = Some beep.
Proof.
  intros ops.
  destruct (registries_never_shrink ops watched "SAVE") as [Hactions Heffects].
  split; [apply Hactions|apply Heffects]; reflexivity.
Defined.

(** ** select *)

(** C7: a subscription made through [select(selector, comparator)] — the
    comparator being [===] when none is given — receives, over any sequence
    of calls that does not unsubscribe it, the selector applied to the value
    current at subscription and to each value the subject takes afterwards,
    with every key dropped that the comparator equates with the key emitted
    last. *)
Theorem select_suppresses_consecutive_duplicates b sel cmp ops :
  wf b →
  let r0 := subscribe (select (Some sel) cmp) b in
  let id := issued (subject b) in
  Unsubscribe id ∉ ops →
  completion r0 = Normal id ∧
  received id (emitted r0 ++ trace ops (final r0))
  = distinctUntilChanged (compareWith cmp)
      (sel <$> snapshot b :: nexts (trace ops (final r0))).
Proof.
  intros Hwf r0 id Hops.
  assert (Hwf0 : wf (final r0)).
  { apply (wf_perform (Subscribe (select (Some sel) cmp))) in Hwf.
    revert Hwf. cbn [perform]. unfold bind. subst r0.
    by rewrite subscribe_run. }
  assert (Hr0 : r0 = mkRun (final r0) [Notify id (sel (snapshot b))] (Normal id)).
  { subst r0. by rewrite subscribe_run. }
  assert (Htracks : tracks id sel cmp (sel (snapshot b)) (subject (final r0))).
  { subst r0. rewrite subscribe_run. unfold tracks.
    cbv zeta. cbn [final subject withSubject observers].
    apply elem_of_app. right. by apply list_elem_of_singleton. }
  split; [by rewrite Hr0|].
  rewrite received_app, (trace_tracked id sel cmp ops _ _ Hwf0 Htracks Hops).
  rewrite Hr0 at 1. cbn [emitted]. unfold received at 1. simpl.
  by rewrite Nat.eqb_refl.
Qed.

(** The example of the specification: the states 1, 1, 2, 2, 1 seen through
    the identity selector and the default comparator are 1, 2, 1. *)
Lemma select_suppresses_consecutive_duplicates_witness :
  let ops := [becomes 1; becomes 2; becomes 2; becomes 1] in
  let r0 := subscribe (select (Some (λ v, v)) None) numeric in
  snapshot numeric :: nexts (trace ops (final r0))
  = [VNum 1; VNum 1; VNum 2; VNum 2; VNum 1] ∧
  completion r0 = Normal 0%nat ∧
  received 0 (emitted r0 ++ trace ops (final r0)) = [VNum 1; VNum 2; VNum 1].
Proof.
  intros ops r0. split; [reflexivity|].
  apply (select_suppresses_consecutive_duplicates numeric (λ v, v) None ops).
  - split; simpl; constructor.
  - intros Hin.
    repeat (apply elem_of_cons in Hin as [Hin|Hin]; [discriminate Hin|]).
    by apply elem_of_nil in Hin.
Defined.

(** * Further properties *)

(** ** The two forms of setData *)

(** X1: given an object [v] directly, or a function that returns [v], setData
    leaves the same Brick; with an adapter the two forms differ in the order
    of their events: the direct form tells the adapter first and publishes
    afterwards, the function form publishes first and tells the adapter
    last. *)
Theorem setData_forms_differ_in_order b f v action d :
  devtoolWrapper b = Some d →
  instanceofObject v = true →
  f (snapshot b) = Normal v →
  final (setData (Direct v) action b) = final (setData (Transformer f) action b) ∧
  emitted (setData (Direct v) action b)
  = Send action (StateValue v) :: Next v
    :: notifications v (observers (subject b)) ∧
  emitted (setData (Transformer f) action b)
  = Transform (snapshot b) :: Next v
    :: notifications v (observers (subject b))
    ++ [Send action (StateValue v)].
Proof.
  intros Hd Hobj Hf.
  rewrite (setData_direct_object _ _ _ Hobj).
  rewrite (setData_transformer_normal _ _ _ _ Hf).
  unfold reported. rewrite Hd. by repeat split.
Qed.

Lemma setData_forms_differ_in_order_witness :
  let v := VObj 3 [("count", VNum 4)] in
  final (setData (Direct v) "SET_DATA" watched)
  = final (setData (Transformer (λ _, Normal v)) "SET_DATA" watched) ∧
  emitted (setData (Direct v) "SET_DATA" watched)
  = [Send "SET_DATA" (StateValue v); Next v; Notify 0 v] ∧
  emitted (setData (Transformer (λ _, Normal v)) "SET_DATA" watched)
  = [Transform (VObj 0 [("count", VNum 0)]); Next v; Notify 0 v;
     Send "SET_DATA" (StateValue v)].
Proof.
  intros v.
  apply (setData_forms_differ_in_order watched (λ _, Normal v) v "SET_DATA"
           (mkDevtool (VObj 0 [("count", VNum 0)]))); reflexivity.
Defined.

(** ** dispatch when a callback throws *)

(** X2: when the reducer registered under the name throws, dispatch throws
    the same exception and the Brick is as before; the subject took no value,
    nobody was notified, the adapter was told nothing, and a side effect
    registered under the same name was not called. *)
Theorem dispatch_reducer_throws b name reducer p e :
  actions b !! name = Some reducer →
  reducer (snapshot b) p = Throw e →
  dispatch name p b = mkRun b [Transform (snapshot b)] (Throw e).
Proof.
  intros Hreducer He. rewrite dispatch_run, Hreducer.
  by rewrite (setData_transformer_throw (λ state, reducer state p) e).
Qed.

Lemma dispatch_reducer_throws_witness :
  sideEffects fragile !! "BAD" = Some beep ∧
  dispatch "BAD" (VNum 1) fragile
  = mkRun fragile [Transform (VObj 0 [("count", VNum 0)])]
      (Throw (Thrown (VStr "boom"))).
Proof.
  split; [reflexivity|].
  apply (dispatch_reducer_throws fragile "BAD" failing (VNum 1)
           (Thrown (VStr "boom"))); reflexivity.
Defined.

(** X3: when the reducer returns [v] and the side effect registered under
    the same name throws, dispatch throws that exception after the state
    transition: the snapshot is [v], the subject published [v] and the
    adapter was told of the transition, but the side effect's own report is
    not sent. *)
Theorem dispatch_side_effect_throws b name reducer effect p v e :
  actions b !! name = Some reducer →
  sideEffects b !! name = Some effect →
  reducer (snapshot b) p = Normal v →
  effect p = Throw e →
  completion (dispatch name p b) = Throw e ∧
  snapshot (final (dispatch name p b)) = v ∧
  emitted (dispatch name p b)
  = Transform (snapshot b) :: Next v
    :: notifications v (observers (subject b))
    ++ reported b name (StateValue v) ++ [Effect name p].
Proof.
  intros Hreducer Heffect Hv He.
  rewrite dispatch_run, Hreducer, Heffect.
  rewrite (setData_transformer_normal (λ state, reducer state p) v) by done.
  cbv zeta. cbn [completion final emitted]. rewrite He.
  cbn [completion final emitted]. repeat split.
  cbn [app]. by rewrite <- app_assoc.
Qed.

Lemma dispatch_side_effect_throws_witness :
  let v := VObj 1 [("count", VNum 2)] in
  completion (dispatch "RISKY" (VNum 2) fragile) = Throw (Thrown (VStr "crash")) ∧
  snapshot (final (dispatch "RISKY" (VNum 2) fragile)) = v ∧
  emitted (dispatch "RISKY" (VNum 2) fragile)
  = [Transform (VObj 0 [("count", VNum 0)]); Next v; Notify 0 v;
     Send "RISKY" (StateValue v); Effect "RISKY" (VNum 2)].
Proof.
  intros v.
  apply (dispatch_side_effect_throws fragile "RISKY" increment crashing
           (VNum 2) v (Thrown (VStr "crash"))); reflexivity.
Defined.

(** X4: under a name that has a side effect and no reducer, dispatch leaves
    the subject and the registries as they are and publishes nothing: its
    events are the call of the effect and, if the call returns and there is
    an adapter, the side-effect record; its completion is that of the
    effect, a returned value being dropped. *)
Theorem dispatch_side_effect_alone b name effect p :
  actions b !! name = None →
  sideEffects b !! name = Some effect →
  final (dispatch name p b) = b ∧
  nexts (emitted (dispatch name p b)) = [] ∧
  (∀ id, received id (emitted (dispatch name p b)) = []) ∧
  emitted (dispatch name p b)
  = Effect name p
    :: match effect p with
       | Normal _ => reported b name (sideEffectRecord p)
       | Throw _ => []
       end ∧
  completion (dispatch name p b)
  = match effect p with
    | Normal _ => Normal tt
    | Throw e => Throw e
    end.
Proof.
  intros Hreducer Heffect. rewrite dispatch_run, Hreducer, Heffect.
  cbv zeta. cbn [completion final emitted app].
  destruct (effect p); cbn [completion final emitted]; repeat split.
  - change (nexts (Effect ?a ?q :: ?l)) with (nexts l). apply nexts_reported.
  - intros id.
    change (received id (Effect ?a ?q :: ?l)) with (received id l).
    apply received_reported.
Qed.

Lemma dispatch_side_effect_alone_witness :
  final (dispatch "PING" VNull fragile) = fragile ∧
  emitted (dispatch "PING" VNull fragile)
  = [Effect "PING" VNull;
     Send "PING" (Literal [("type", VStr "sideEffect"); ("payload", VNull)])] ∧
  completion (dispatch "PING" VNull fragile) = Normal tt.
Proof.
  destruct (dispatch_side_effect_alone fragile "PING" beep VNull)
    as (Hfinal & _ & _ & Hemitted & Hcompletion); [reflexivity|reflexivity|].
  split; [exact Hfinal|]. split; [exact Hemitted|exact Hcompletion].
Defined.

(** ** Registering and then dispatching *)

(** X5: registering a reducer under a name the action registry does not hold
    returns normally, after which the reducer is found under the name and a
    dispatch of the name installs what it returns. *)
Theorem register_then_dispatch b name reducer p v :
  actions b !! name = None →
  reducer (snapshot b) p = Normal v →
  let b1 := final (registerAction name reducer b) in
  completion (registerAction name reducer b) = Normal tt ∧
  actions b1 !! name = Some reducer ∧
  snapshot (final (dispatch name p b1)) = v.
Proof.
  intros Hfresh Hv b1. subst b1. rewrite registerAction_run, Hfresh.
  cbn [completion final].
  assert (Hfound : actions (withActions (<[name:=reducer]> (actions b)) b) !! name
                   = Some reducer) by apply lookup_insert_eq.
  split; [done|]. split; [done|].
  destruct (dispatch_halves name p (withActions (<[name:=reducer]> (actions b)) b))
    as (r1 & Hr1 & Hfinal & _).
  rewrite Hfound in Hr1.
  rewrite (setData_transformer_normal (λ state, reducer state p) v) in Hr1 by done.
  by rewrite Hfinal, Hr1.
Qed.

Lemma register_then_dispatch_witness :
  let b1 := final (registerAction "INC" increment counter) in
  completion (registerAction "INC" increment counter) = Normal tt ∧
  actions b1 !! "INC" = Some increment ∧
  snapshot (final (dispatch "INC" (VNum 5) b1)) = VObj 1 [("count", VNum 5)].
Proof.
  apply (register_then_dispatch counter "INC" increment (VNum 5)
           (VObj 1 [("count", VNum 5)])); reflexivity.
Defined.

(** X6: the two registries are separate name spaces.  Whether a side effect
    can be registered under a name does not depend on the actions registered
    before, under that name or any other, and conversely; and registering an
    action and a side effect in either order leaves the same Brick. *)
Theorem registries_are_independent b name name' reducer effect :
  completion (registerSideEffect name' effect (final (registerAction name reducer b)))
  = completion (registerSideEffect name' effect b) ∧
  completion (registerAction name reducer (final (registerSideEffect name' effect b)))
  = completion (registerAction name reducer b) ∧
  after [RegisterAction name reducer; RegisterSideEffect name' effect] b
  = after [RegisterSideEffect name' effect; RegisterAction name reducer] b.
Proof.
  cbn [after perform].
  rewrite !registerAction_run, !registerSideEffect_run.
  destruct (actions b !! name) eqn:Hactions,
           (sideEffects b !! name') eqn:Heffects;
    cbn [final completion actions sideEffects withActions withSideEffects];
    rewrite ?registerAction_run, ?registerSideEffect_run;
    cbn [final completion actions sideEffects withActions withSideEffects];
    rewrite ?Hactions, ?Heffects; done.
Qed.

(** X7: the order in which two different names are registered does not
    matter: the Brick is the same afterwards, also when one of the calls or
    both throw. *)
Theorem registration_order_is_irrelevant b n1 n2 r1 r2 e1 e2 :
  n1 ≠ n2 →
  after [RegisterAction n1 r1; RegisterAction n2 r2] b
  = after [RegisterAction n2 r2; RegisterAction n1 r1] b ∧
  after [RegisterSideEffect n1 e1; RegisterSideEffect n2 e2] b
  = after [RegisterSideEffect n2 e2; RegisterSideEffect n1 e1] b.
Proof.
  intros Hne. cbn [after perform]. split.
  - rewrite !registerAction_run.
    destruct (actions b !! n1) eqn:H1, (actions b !! n2) eqn:H2;
      cbn [final actions withActions];
      rewrite ?registerAction_run; cbn [final actions withActions];
      rewrite ?lookup_insert_ne, ?H1, ?H2 by done; try done.
    unfold withActions. cbn [subject actions sideEffects devtoolWrapper].
    by rewrite insert_insert_ne.
  - rewrite !registerSideEffect_run.
    destruct (sideEffects b !! n1) eqn:H1, (sideEffects b !! n2) eqn:H2;
      cbn [final sideEffects withSideEffects];
      rewrite ?registerSideEffect_run; cbn [final sideEffects withSideEffects];
      rewrite ?lookup_insert_ne, ?H1, ?H2 by done; try done.
    unfold withSideEffects. cbn [subject actions sideEffects devtoolWrapper].
    by rewrite insert_insert_ne.
Qed.

Lemma registration_order_is_irrelevant_witness :
  after [RegisterAction "SAVE" reset; RegisterAction "LOAD" reset] watched
  = after [RegisterAction "LOAD" reset; RegisterAction "SAVE" reset] watched ∧
  after [RegisterSideEffect "SAVE" beep; RegisterSideEffect "LOAD" crashing]
    watched
  = after [RegisterSideEffect "LOAD" crashing; RegisterSideEffect "SAVE" beep]
      watched.
Proof.
  apply (registration_order_is_irrelevant watched "SAVE" "LOAD" reset reset
           beep crashing).
  discriminate.
Defined.

Lemma perform_without_registration op b :
  isRegistration op = false →
  actions (final (perform op b)) = actions b ∧
  sideEffects (final (perform op b)) = sideEffects b ∧
  devtoolWrapper (final (perform op b)) = devtoolWrapper b.
Proof.
  intros Hop.
  destruct op as [arg action|name reducer|name effect|action payload|source|id];
    try discriminate Hop; cbn [perform].
  - apply setData_frame.
  - apply dispatch_frame.
  - unfold bind. by rewrite subscribe_run.
  - done.
Qed.

(** X8: only a registration changes a registry: over any sequence of calls
    to setData, dispatch, subscribe and unsubscribe, both registries and the
    adapter are what they were. *)
Theorem only_registration_changes_registries ops b :
  Forall (λ op, isRegistration op = false) ops →
  actions (after ops b) = actions b ∧
  sideEffects (after ops b) = sideEffects b ∧
  devtoolWrapper (after ops b) = devtoolWrapper b.
Proof.
  revert b. induction ops as [|op ops IH]; intros b Hops; [done|].
  apply Forall_cons in Hops as [Hop Hops]. cbn [after].
  destruct (IH (final (perform op b)) Hops) as (-> & -> & ->).
  by apply perform_without_registration.
Qed.

Lemma only_registration_changes_registries_witness :
  let ops := [Dispatch "SAVE" (VNum 1); SetData (Direct (VObj 9 [])) "SET_DATA";
              Dispatch "BAD" VNull; Subscribe asObservable; Unsubscribe 0] in
  actions (after ops fragile) = actions fragile ∧
  sideEffects (after ops fragile) = sideEffects fragile ∧
  devtoolWrapper (after ops fragile) = devtoolWrapper fragile.
Proof.
  intros ops.
  apply (only_registration_changes_registries ops fragile).
  repeat constructor.
Defined.

(** ** A new Brick *)

(** X9: a Brick holds its initial value when created, and until something
    is registered on it dispatch does nothing: after any calls to setData,
    dispatch, subscribe and unsubscribe on a new Brick, a dispatch of any
    name returns normally, leaves the Brick as it is and emits nothing. *)
Theorem dispatch_does_nothing_until_registration devtools initialData ops name p :
  Forall (λ op, isRegistration op = false) ops →
  let b := after ops (createBrick devtools initialData) in
  snapshot (createBrick devtools initialData) = initialData ∧
  dispatch name p b = mkRun b [] (Normal tt).
Proof.
  intros Hops b. split; [done|]. subst b.
  assert (Hempty : actions (createBrick devtools initialData) = ∅
                   ∧ sideEffects (createBrick devtools initialData) = ∅) by done.
  revert Hempty. generalize (createBrick devtools initialData).
  induction ops as [|op ops IH]; intros b [Hactions Heffects].
  - cbn [after]. rewrite dispatch_run, Hactions, Heffects.
    by rewrite !lookup_empty.
  - apply Forall_cons in Hops as [Hop Hops]. cbn [after]. apply IH; [done|].
    destruct (perform_without_registration op b Hop) as (-> & -> & _).
    done.
Qed.

Lemma dispatch_does_nothing_until_registration_witness :
  let ops := [SetData (Direct (VObj 4 [])) "SET_DATA"; Subscribe asObservable;
              Dispatch "INC" (VNum 1)] in
  let b := after ops (createBrick true (VNum 0)) in
  snapshot (createBrick true (VNum 0)) = VNum 0 ∧
  dispatch "INC" (VNum 5) b = mkRun b [] (Normal tt).
Proof.
  intros ops.
  apply (dispatch_does_nothing_until_registration true (VNum 0) ops "INC" (VNum 5)).
  repeat constructor.
Defined.

(** ** The snapshot and the stream *)

Lemma perform_value op b :
  (snapshot (final (perform op b)) = snapshot b ∧
   nexts (emitted (perform op b)) = []) ∨
  (∃ v, snapshot (final (perform op b)) = v ∧
        nexts (emitted (perform op b)) = [v]).
Proof.
  assert (Heffect : ∀ r, SubjectEffect b r →
    (snapshot (final r) = snapshot b ∧ nexts (emitted r) = []) ∨
    (∃ v, snapshot (final r) = v ∧ nexts (emitted r) = [v])).
  { intros r [Hsub Hn _|v Hsub Hn _]; unfold snapshot; rewrite Hsub.
    - by left.
    - right. by exists v. }
  destruct op as [arg action|name reducer|name effect|action payload|source|id];
    cbn [perform].
  - apply Heffect, setData_effect.
  - apply Heffect, registerAction_effect.
  - apply Heffect, registerSideEffect_effect.
  - apply Heffect, dispatch_effect.
  - left. unfold bind. rewrite subscribe_run.
    cbn [ret completion final emitted]. split; [done|]. rewrite app_nil_r.
    by destruct (deliver_events (value (subject b))
                   (mkObserver (issued (subject b)) (pipelineOf source)))
      as [->|[x ->]].
  - by left.
Qed.

(** X10: the snapshot is always the value published last: over any sequence
    of calls, it is the last value the subject took during them, or the
    snapshot before them if the subject took none.  No call changes the
    snapshot without publishing. *)
Theorem snapshot_is_last_published ops b :
  snapshot (after ops b) = default (snapshot b) (last (nexts (trace ops b))).
Proof.
  revert b. induction ops as [|op ops IH]; intros b; [done|].
  cbn [after trace]. rewrite IH, nexts_app, last_app.
  destruct (last (nexts (trace ops (final (perform op b))))) as [v|]; [done|].
  cbn [default].
  destruct (perform_value op b) as [[-> ->]|(v & -> & ->)]; done.
Qed.

Lemma plain_pushed id v s : plain id s → plain id (pushed v s).
Proof.
  unfold plain, pushed. cbn [observers]. intros Hin.
  apply list_elem_of_fmap. by exists (mkObserver id None).
Qed.

Lemma perform_plain id op b :
  wf b → plain id (subject b) → op ≠ Unsubscribe id →
  plain id (subject (final (perform op b))) ∧
  received id (emitted (perform op b)) = nexts (emitted (perform op b)).
Proof.
  intros [Hnodup Hissued] Hplain Hop.
  assert (Heffect : ∀ r, SubjectEffect b r →
    plain id (subject (final r)) ∧ received id (emitted r) = nexts (emitted r)).
  { intros r [Hsub Hn Hr|v Hsub Hn Hr]; rewrite Hsub, Hn, Hr; [done|].
    split; [by apply plain_pushed|].
    rewrite (received_notifications v _ _ Hnodup Hplain : received id _ = _).
    by apply (received_deliver_plain v (mkObserver id None)). }
  destruct op as [arg action|name reducer|name effect|action payload|source|id'];
    cbn [perform].
  - apply Heffect, setData_effect.
  - apply Heffect, registerAction_effect.
  - apply Heffect, registerSideEffect_effect.
  - apply Heffect, dispatch_effect.
  - unfold bind. rewrite subscribe_run.
    cbn [ret completion final emitted]. unfold withSubject.
    cbn [subject]. rewrite app_nil_r.
    set (fresh := mkObserver (issued (subject b)) (pipelineOf source)).
    assert (Hquiet : nexts (snd (deliver (value (subject b)) fresh)) = []).
    { by destruct (deliver_events (value (subject b)) fresh) as [->|[x ->]]. }
    rewrite Hquiet. split.
    + unfold plain. cbn [observers]. apply elem_of_app. by left.
    + apply received_deliver_ne. subst fresh. cbn [sid].
      rewrite Forall_forall in Hissued.
      specialize (Hissued _ Hplain). simpl in Hissued. lia.
  - unfold unsubscribe, bind.
    cbn [get put completion final emitted]. unfold withSubject.
    cbn [subject]. split; [|done].
    unfold plain. cbn [observers].
    apply list_elem_of_filter. split; [|done].
    simpl. intros <-. by apply Hop.
Qed.

Lemma trace_plain id ops b :
  wf b → plain id (subject b) → Unsubscribe id ∉ ops →
  received id (trace ops b) = nexts (trace ops b).
Proof.
  revert b. induction ops as [|op ops IH]; intros b Hwf Hplain Hops; [done|].
  apply not_elem_of_cons in Hops as [Hop Hops].
  destruct (perform_plain id op b Hwf Hplain) as [Hplain' Hrecv]; [done|].
  cbn [trace]. rewrite received_app, nexts_app, Hrecv. f_equal.
  apply IH; [by apply wf_perform|done|done].
Qed.

(** X11: without a selector, [select$] is the subject's own stream, whatever
    comparator comes with it: the subscription is handed the value current
    when it is made and then every value the subject takes, repeated values
    included, for as long as it is not unsubscribed. *)
Theorem select_without_selector_is_unfiltered b cmp ops :
  wf b →
  let r0 := subscribe (select None cmp) b in
  let id := issued (subject b) in
  Unsubscribe id ∉ ops →
  select None cmp = asObservable ∧
  completion r0 = Normal id ∧
  received id (emitted r0 ++ trace ops (final r0))
  = snapshot b :: nexts (trace ops (final r0)).
Proof.
  intros Hwf r0 id Hops. split; [done|].
  assert (Hwf0 : wf (final r0)).
  { apply (wf_perform (Subscribe (select None cmp))) in Hwf.
    revert Hwf. cbn [perform]. unfold bind. subst r0.
    by rewrite subscribe_run. }
  assert (Hr0 : r0 = mkRun (final r0) [Notify id (snapshot b)] (Normal id)).
  { subst r0. by rewrite subscribe_run. }
  assert (Hplain : plain id (subject (final r0))).
  { subst r0. rewrite subscribe_run. unfold plain.
    cbv zeta. cbn [final subject withSubject observers].
    apply elem_of_app. right. by apply list_elem_of_singleton. }
  split; [by rewrite Hr0|].
  rewrite received_app, (trace_plain id ops _ Hwf0 Hplain Hops).
  rewrite Hr0 at 1. cbn [emitted]. unfold received at 1. simpl.
  by rewrite Nat.eqb_refl.
Qed.

(** The states 1, 1, 2, 2, 1 again, now without a selector: all five
    arrive, although a comparator that equates everything was passed. *)
Lemma select_without_selector_is_unfiltered_witness :
  let ops := [becomes 1; becomes 2; becomes 2; becomes 1] in
  let r0 := subscribe (select None (Some (λ _ _, true))) numeric in
  select None (Some (λ _ _, true)) = asObservable ∧
  completion r0 = Normal 0%nat ∧
  received 0 (emitted r0 ++ trace ops (final r0))
  = [VNum 1; VNum 1; VNum 2; VNum 2; VNum 1].
Proof.
  intros ops r0.
  apply (select_without_selector_is_unfiltered numeric
           (Some (λ _ _, true)) ops).
  - split; simpl; constructor.
  - intros Hin.
    repeat (apply elem_of_cons in Hin as [Hin|Hin]; [discriminate Hin|]).
    by apply elem_of_nil in Hin.
Defined.

(** ** The devtool adapter *)

Lemma statesSent_app l1 l2 :
  statesSent (l1 ++ l2) = statesSent l1 ++ statesSent l2.
Proof. apply omap_app. Qed.

Lemma statesSent_notifications v os : statesSent (notifications v os) = [].
Proof.
  induction os as [|o os IH]; [done|].
  unfold notifications in *. simpl. rewrite statesSent_app, IH.
  by destruct (deliver_events v o) as [->|[x ->]].
Qed.

Lemma unsent_deliver v o :
  filter (λ ev, isSend ev = false) (snd (deliver v o)) = snd (deliver v o).
Proof. by destruct (deliver_events v o) as [->|[x ->]]. Qed.

Lemma unsent_notifications v os :
  filter (λ ev, isSend ev = false) (notifications v os) = notifications v os.
Proof.
  induction os as [|o os IH]; [done|].
  unfold notifications in *. simpl. by rewrite filter_app, IH, unsent_deliver.
Qed.

Lemma unsent_reported b action payload :
  filter (λ ev, isSend ev = false) (reported b action payload) = [].
Proof. unfold reported. by destruct (devtoolWrapper b). Qed.

Lemma setData_withoutDevtool arg action b :
  setData arg action (withoutDevtool b) = unobserved (setData arg action b).
Proof.
  destruct arg as [f|v].
  - destruct (f (snapshot b)) as [v|e] eqn:Hf.
    + rewrite (setData_transformer_normal f v action (withoutDevtool b) Hf).
      rewrite (setData_transformer_normal f v action b Hf).
      unfold unobserved. cbn [final emitted completion]. f_equal.
      rewrite !filter_cons. simpl.
      by rewrite filter_app, unsent_notifications, unsent_reported.
    + rewrite (setData_transformer_throw f e action (withoutDevtool b) Hf).
      by rewrite (setData_transformer_throw f e action b Hf).
  - destruct (instanceofObject v) eqn:Hobj.
    + rewrite !(setData_direct_object _ _ _ Hobj).
      unfold unobserved. cbn [final emitted completion]. f_equal.
      rewrite filter_app, unsent_reported, filter_cons. simpl.
      by rewrite unsent_notifications.
    + by rewrite !(setData_direct_primitive _ _ _ Hobj).
Qed.

Lemma dispatch_withoutDevtool action payload b :
  dispatch action payload (withoutDevtool b)
  = unobserved (dispatch action payload b).
Proof.
  rewrite !dispatch_run. cbn [withoutDevtool actions sideEffects].
  destruct (actions b !! action) as [reducer|].
  - rewrite setData_withoutDevtool. cbv zeta.
    destruct (setData _ action b) as [b1 evs1 [[]|e]];
      unfold unobserved; cbn [final emitted completion]; [|done].
    destruct (sideEffects b !! action) as [effect|];
      cbn [final emitted completion]; [|by rewrite !app_nil_r].
    destruct (effect payload); cbn [final emitted completion];
      rewrite filter_app, filter_cons; simpl; [|done].
    by rewrite unsent_reported.
  - cbv zeta. cbn [final emitted completion app].
    destruct (sideEffects b !! action) as [effect|]; [|done].
    destruct (effect payload); unfold unobserved;
      cbn [final emitted completion]; rewrite filter_cons; simpl; [|done].
    by rewrite unsent_reported.
Qed.

Lemma perform_withoutDevtool op b :
  perform op (withoutDevtool b) = unobserved (perform op b).
Proof.
  destruct op as [arg action|name reducer|name effect|action payload|source|id];
    cbn [perform].
  - apply setData_withoutDevtool.
  - rewrite !registerAction_run. cbn [withoutDevtool actions].
    by destruct (actions b !! name).
  - rewrite !registerSideEffect_run. cbn [withoutDevtool sideEffects].
    by destruct (sideEffects b !! name).
  - apply dispatch_withoutDevtool.
  - unfold bind. rewrite !subscribe_run. unfold unobserved.
    cbv zeta. cbn [ret final emitted completion withoutDevtool subject].
    rewrite !app_nil_r. by rewrite unsent_deliver.
  - done.
Qed.

(** X12: the adapter only watches.  Run on a Brick without its adapter, any
    sequence of calls ends in the same Brick less the adapter — same
    snapshot, same subscriptions, same registries — and has the same events
    but for the [send]s. *)
Theorem devtool_does_not_interfere ops b :
  after ops (withoutDevtool b) = withoutDevtool (after ops b) ∧
  trace ops (withoutDevtool b)
  = filter (λ ev, isSend ev = false) (trace ops b) ∧
  ∀ op, completion (perform op (after ops (withoutDevtool b)))
        = completion (perform op (after ops b)).
Proof.
  assert (Hafter : ∀ b', after ops (withoutDevtool b') = withoutDevtool (after ops b')
                         ∧ trace ops (withoutDevtool b')
                           = filter (λ ev, isSend ev = false) (trace ops b')).
  { induction ops as [|op ops IH]; intros b'; [done|].
    cbn [after trace]. rewrite perform_withoutDevtool.
    unfold unobserved at 1 2 3. cbn [final emitted].
    destruct (IH (final (perform op b'))) as [-> ->].
    by rewrite filter_app. }
  destruct (Hafter b) as [Hbrick Htrace].
  split; [done|]. split; [done|].
  intros op. by rewrite Hbrick, perform_withoutDevtool.
Qed.

Lemma nexts_cons ev l :
  nexts (ev :: l)
  = match installed ev with Some v => v :: nexts l | None => nexts l end.
Proof. reflexivity. Qed.

Lemma statesSent_cons ev l :
  statesSent (ev :: l)
  = match reportedState ev with
    | Some v => v :: statesSent l
    | None => statesSent l
    end.
Proof. reflexivity. Qed.

Lemma perform_keeps_adapter op b :
  devtoolWrapper (final (perform op b)) = devtoolWrapper b.
Proof.
  destruct op as [arg action|name reducer|name effect|action payload|source|id];
    cbn [perform].
  - apply setData_frame.
  - rewrite registerAction_run. by destruct (actions b !! name).
  - rewrite registerSideEffect_run. by destruct (sideEffects b !! name).
  - apply dispatch_frame.
  - unfold bind. by rewrite subscribe_run.
  - done.
Qed.

Lemma setData_statesSent arg action b d :
  devtoolWrapper b = Some d →
  statesSent (emitted (setData arg action b))
  = nexts (emitted (setData arg action b)).
Proof.
  intros Hd. destruct arg as [f|v].
  - destruct (f (snapshot b)) as [v|e] eqn:Hf.
    + rewrite (setData_transformer_normal _ _ _ _ Hf). cbn [emitted].
      rewrite !nexts_cons, !statesSent_cons. cbn [installed reportedState].
      rewrite nexts_app, statesSent_app, nexts_notifications,
        statesSent_notifications, nexts_reported.
      unfold reported. by rewrite Hd.
    + by rewrite (setData_transformer_throw _ _ _ _ Hf).
  - destruct (instanceofObject v) eqn:Hobj.
    + rewrite (setData_direct_object _ _ _ Hobj). cbn [emitted].
      rewrite nexts_app, statesSent_app, nexts_reported.
      rewrite !nexts_cons, !statesSent_cons. cbn [installed reportedState].
      rewrite nexts_notifications, statesSent_notifications.
      unfold reported. by rewrite Hd.
    + by rewrite (setData_direct_primitive _ _ _ Hobj).
Qed.

Lemma perform_statesSent op b d :
  devtoolWrapper b = Some d →
  statesSent (emitted (perform op b)) = nexts (emitted (perform op b)).
Proof.
  intros Hd.
  destruct op as [arg action|name reducer|name effect|action payload|source|id];
    cbn [perform].
  - by apply setData_statesSent with d.
  - rewrite registerAction_run. by destruct (actions b !! name).
  - rewrite registerSideEffect_run. by destruct (sideEffects b !! name).
  - rewrite dispatch_run. cbv zeta.
    match goal with
    | |- context [completion ?r] =>
        assert (Hr1 : statesSent (emitted r) = nexts (emitted r));
        [|revert Hr1; generalize r; intros r1 Hr1]
    end.
    { destruct (actions b !! action) as [reducer|]; [|done].
      by apply setData_statesSent with d. }
    destruct (completion r1); [|done].
    destruct (sideEffects b !! action) as [effect|].
    + destruct (effect payload); cbn [emitted];
        rewrite nexts_app, statesSent_app, Hr1; f_equal.
      unfold reported. by destruct (devtoolWrapper (final r1)).
    + cbn [emitted]. by rewrite nexts_app, statesSent_app, Hr1.
  - unfold bind. rewrite subscribe_run. cbn [ret completion final emitted].
    rewrite app_nil_r.
    by destruct (deliver_events (value (subject b))
                   (mkObserver (issued (subject b)) (pipelineOf source)))
      as [->|[x ->]].
  - done.
Qed.

(** X13: with an adapter, the states it is told of are the values the
    subject takes, one for one and in the same order, over any sequence of
    calls: every state transition is reported, and nothing is reported as a
    state that the subject did not take. *)
Theorem adapter_is_told_every_transition ops b d :
  devtoolWrapper b = Some d →
  statesSent (trace ops b) = nexts (trace ops b).
Proof.
  revert b. induction ops as [|op ops IH]; intros b Hd; [done|].
  cbn [trace]. rewrite statesSent_app, nexts_app.
  rewrite (perform_statesSent op b d Hd). f_equal.
  apply IH. by rewrite perform_keeps_adapter.
Qed.

Lemma adapter_is_told_every_transition_witness :
  let ops := [Dispatch "SAVE" (VNum 2); SetData (Direct (VNum 3)) "SET_DATA";
              SetData (Direct (VObj 5 [])) "SET_DATA"; Dispatch "BAD" VNull;
              Dispatch "PING" VNull] in
  statesSent (trace ops fragile) = [VObj 1 [("count", VNum 2)]; VObj 5 []] ∧
  statesSent (trace ops fragile) = nexts (trace ops fragile).
Proof.
  intros ops. split; [reflexivity|].
  apply (adapter_is_told_every_transition ops fragile
           (mkDevtool (VObj 0 [("count", VNum 0)]))).
  reflexivity.
Defined.

(** X14: a Brick without an adapter stays without one and never sends: over
    any sequence of calls no event is a [send]. *)
Theorem no_adapter_no_send ops b :
  devtoolWrapper b = None →
  devtoolWrapper (after ops b) = None ∧
  ∀ action payload, Send action payload ∉ trace ops b.
Proof.
  revert b. induction ops as [|op ops IH]; intros b Hnone.
  - split; [done|]. intros action payload. apply not_elem_of_nil.
  - assert (Hb : withoutDevtool b = b) by (destruct b; simpl in *; by subst).
    assert (Hkept : devtoolWrapper (final (perform op b)) = None)
      by (by rewrite perform_keeps_adapter).
    destruct (IH _ Hkept) as [Hafter Htrace].
    cbn [after trace]. split; [done|].
    intros action payload [Hin|Hin]%elem_of_app; [|by eapply Htrace].
    rewrite <- Hb, perform_withoutDevtool in Hin.
    unfold unobserved in Hin. cbn [emitted] in Hin.
    by apply list_elem_of_filter in Hin as [? _].
Qed.

Lemma no_adapter_no_send_witness :
  let ops := [becomes 2; RegisterSideEffect "PING" beep; Dispatch "PING" VNull;
              SetData (Direct (VObj 1 [])) "SET_DATA"] in
  devtoolWrapper (after ops numeric) = None ∧
  ∀ action payload, Send action payload ∉ trace ops numeric.
Proof.
  intros ops. apply (no_adapter_no_send ops numeric). reflexivity.
Defined.

(** ** A sequence of dispatches *)

(** X15: dispatching one name with a list of payloads, one call after the
    other, folds its reducer over them: if the reducer, run from the snapshot
    over the payloads in turn, ends in [v], then [v] is the snapshot
    afterwards and the subject has published once for each payload — also
    when a side effect registered under the name throws each time. *)
Theorem dispatches_fold_reducer b name reducer payloads v :
  actions b !! name = Some reducer →
  reduceAll reducer (snapshot b) payloads = Normal v →
  snapshot (after (Dispatch name <$> payloads) b) = v ∧
  length (nexts (trace (Dispatch name <$> payloads) b)) = length payloads.
Proof.
  revert b. induction payloads as [|p payloads IH]; intros b Hreducer Hfold.
  - cbn in *. by injection Hfold as <-.
  - cbn [reduceAll] in Hfold.
    destruct (reducer (snapshot b) p) as [s'|e] eqn:Hstep; [|done].
    rewrite fmap_cons. cbn [after trace perform].
    destruct (dispatch_halves name p b)
      as (r1 & Hr1 & Hfinal & tail & Hev & Hnexts & _).
    rewrite Hreducer in Hr1.
    rewrite (setData_transformer_normal (λ state, reducer state p) s') in Hr1
      by done.
    assert (Hsnap : snapshot (final (dispatch name p b)) = s')
      by (by rewrite Hfinal, Hr1).
    assert (Hkept : actions (final (dispatch name p b)) !! name = Some reducer).
    { destruct (dispatch_frame name p b) as (-> & _). done. }
    rewrite <- Hsnap in Hfold.
    destruct (IH _ Hkept Hfold) as [IHsnap IHlen].
    split; [done|].
    rewrite nexts_app, length_app, IHlen, Hev, nexts_app, Hnexts, app_nil_r, Hr1.
    cbn [emitted]. rewrite !nexts_cons. cbn [installed].
    by rewrite nexts_app, nexts_notifications, nexts_reported.
Qed.

(** INC by 5, 3 and 4 from [{count: 0}] leaves [{count: 12}]. *)
Lemma dispatches_fold_reducer_witness :
  let payloads := [VNum 5; VNum 3; VNum 4] in
  snapshot (after (Dispatch "INC" <$> payloads) counterWithInc)
  = VObj 3 [("count", VNum 12)] ∧
  length (nexts (trace (Dispatch "INC" <$> payloads) counterWithInc)) = 3%nat.
Proof.
  intros payloads.
  apply (dispatches_fold_reducer counterWithInc "INC" increment payloads
           (VObj 3 [("count", VNum 12)])); reflexivity.
Defined.
